(** * Dark-matter density profiles of gammapy: a shallow embedding

    Source: [gammapy/astro/darkmatter/profiles.py].

    Modelling conventions.
    - Arithmetic is exact: a Python/numpy float is a real number, or [None]
      once IEEE arithmetic has left the finite numbers ([nan], [inf]; numpy
      warns and goes on, it does not raise).  [None] is kept by every
      operation: it records that a non-finite value occurred, not what IEEE
      arithmetic makes of it afterwards.
    - Rounding is modelled in one place, where it decides more than the
      last digit of a value: the double operations behind the number of
      grid nodes, whose truncation turns a span one ulp below an integer
      into one node less.  Those operations are a parameter, [DoubleOps].
      Everywhere else a computed value is its exact value.
    - A numpy value is a scalar or a one-dimensional array; binary
      operations broadcast as numpy does and raise [ValueError] on
      incompatible shapes.
    - An astropy quantity is represented by its magnitude in the units the
      module itself uses: kpc for lengths, GeV / cm3 for densities, radians
      for angles.  Conversions between those units are the identity; the
      one conversion the module performs to another unit,
      [.to("GeV2 / cm5")], multiplies by the length of a kpc in cm.
    - A method of [DMProfile] is a computation over the profile object: it
      receives the object, may raise, and returns its result together with
      the object as it is afterwards. *)

From Stdlib Require Import Reals Lra Lia ZArith List String Bool Zfloor.
Import ListNotations.

Open Scope R_scope.

(** ** Floats *)

Definition float := option R.

Definition lift2 (f : R -> R -> R) (a b : float) : float :=
  match a, b with
  | Some x, Some y => Some (f x y)
  | _, _ => None
  end.

Definition np_add : float -> float -> float := lift2 Rplus.
Definition np_subtract : float -> float -> float := lift2 Rminus.
Definition np_multiply : float -> float -> float := lift2 Rmult.

(** [x / 0] is [inf] or [nan]. *)
Definition np_divide (a b : float) : float :=
  match a, b with
  | Some x, Some y => if Req_dec_T y 0 then None else Some (x / y)
  | _, _ => None
  end.

(** [x ** y]: a positive base takes any exponent; a zero base gives 0, 1 or
    [inf] by the sign of the exponent; a negative base needs an integral
    exponent and gives [nan] otherwise. *)
Definition np_power (a b : float) : float :=
  match a, b with
  | Some x, Some y =>
      if Rlt_dec 0 x then Some (Rpower x y)
      else if Req_dec_T x 0 then
        if Rlt_dec 0 y then Some 0
        else if Req_dec_T y 0 then Some 1 else None
      else
        if Req_dec_T (IZR (Zfloor y)) y then Some (powerRZ x (Zfloor y))
        else None
  | _, _ => None
  end.

Definition np_sqrt (a : float) : float :=
  match a with
  | Some x => if Rlt_dec x 0 then None else Some (sqrt x)
  | None => None
  end.

Definition np_sin (a : float) : float := option_map sin a.
Definition np_exp (a : float) : float := option_map exp a.

Definition log10 (x : R) : R := ln x / ln 10.

(** [log10] of a non-positive number is [-inf] or [nan]. *)
Definition np_log10 (a : float) : float :=
  match a with
  | Some x => if Rlt_dec 0 x then Some (log10 x) else None
  | None => None
  end.

(** Truncation towards zero. *)
Definition trunc (x : R) : Z :=
  if Rle_dec 0 x then Zfloor x else Zceil x.

(** [np.int32(x)] truncates towards zero; [nan], an infinity and a number
    outside the 32-bit range convert to the smallest 32-bit integer. *)
Definition np_int32 (a : float) : Z :=
  match a with
  | Some x =>
      let z := trunc x in
      if ((-2147483648 <=? z) && (z <=? 2147483647))%Z then z
      else (-2147483648)%Z
  | None => (-2147483648)%Z
  end.

(** ** Exceptions *)

Inductive exn : Type :=
| ValueError (msg : string)
| TypeError (msg : string)
| KeyError (key : string).

Inductive result (A : Type) : Type :=
| Ok (a : A)
| Raise (e : exn).
Arguments Ok {A} a.
Arguments Raise {A} e.

Definition rbind {A B} (m : result A) (k : A -> result B) : result B :=
  match m with
  | Ok a => k a
  | Raise e => Raise e
  end.

(** ** numpy values: scalars and one-dimensional arrays *)

Inductive ndarray : Type :=
| Scalar (x : float)
| Arr (xs : list float).

Fixpoint zip_with (f : float -> float -> float) (xs ys : list float)
  : list float :=
  match xs, ys with
  | x :: xs', y :: ys' => f x y :: zip_with f xs' ys'
  | _, _ => []
  end.

Definition broadcast (f : float -> float -> float) (a b : ndarray)
  : result ndarray :=
  match a, b with
  | Scalar x, Scalar y => Ok (Scalar (f x y))
  | Scalar x, Arr ys => Ok (Arr (map (f x) ys))
  | Arr xs, Scalar y => Ok (Arr (map (fun x => f x y) xs))
  | Arr xs, Arr ys =>
      if Nat.eqb (List.length xs) (List.length ys)
      then Ok (Arr (zip_with f xs ys))
      else match xs, ys with
           | [x], _ => Ok (Arr (map (f x) ys))
           | _, [y] => Ok (Arr (map (fun x => f x y) xs))
           | _, _ =>
               Raise (ValueError "operands could not be broadcast together")
           end
  end.

Definition ufunc (f : float -> float) (a : ndarray) : ndarray :=
  match a with
  | Scalar x => Scalar (f x)
  | Arr xs => Arr (map f xs)
  end.

Definition nd_add := broadcast np_add.
Definition nd_sub := broadcast np_subtract.
Definition nd_mul := broadcast np_multiply.
Definition nd_div := broadcast np_divide.
Definition nd_pow := broadcast np_power.

(** [a.sum()] with no axis: every element is added up, the result is a
    scalar. *)
Definition nd_sum (a : ndarray) : ndarray :=
  match a with
  | Scalar x => Scalar x
  | Arr xs => Scalar (fold_left np_add xs (Some 0))
  end.

Definition lit (x : R) : ndarray := Scalar (Some x).

Declare Scope result_scope.
Delimit Scope result_scope with result.
Notation "x <- m ;; k" := (rbind m (fun x => k))
  (at level 61, m at next level, right associativity) : result_scope.
Infix "+." := nd_add (at level 50, left associativity) : result_scope.
Infix "-." := nd_sub (at level 50, left associativity) : result_scope.
Infix "*." := nd_mul (at level 40, left associativity) : result_scope.
Infix "/." := nd_div (at level 40, left associativity) : result_scope.
Infix "**." := nd_pow (at level 30, right associativity) : result_scope.
Open Scope result_scope.

(** ** Parameters *)

(** [Parameter(name, value)] *)
Record Param : Type := { name : string; value : float }.

Definition Parameters := list Param.

(** [par.quantity]: the value of a parameter as a scalar quantity. *)
Definition quantity (par : Param) : ndarray := Scalar (value par).

(** A Python [dict] with string keys: assigning to a key that is present
    replaces its value in place, a new key is appended. *)
Definition dict := list (string * ndarray).

Fixpoint dict_set (d : dict) (k : string) (v : ndarray) : dict :=
  match d with
  | [] => [(k, v)]
  | (k', v') :: d' =>
      if String.eqb k' k then (k', v) :: d' else (k', v') :: dict_set d' k v
  end.

Fixpoint dict_get (d : dict) (k : string) : option ndarray :=
  match d with
  | [] => None
  | (k', v') :: d' => if String.eqb k' k then Some v' else dict_get d' k
  end.

(** [{par.name: par.quantity for par in self.parameters}] *)
Definition kwargs_of (ps : Parameters) : dict :=
  fold_left (fun d par => dict_set d (name par) (quantity par)) ps [].

(** [parameters[key]]: the first parameter of that name. *)
Fixpoint par_get (ps : Parameters) (key : string) : option Param :=
  match ps with
  | [] => None
  | par :: ps' =>
      if String.eqb (name par) key then Some par else par_get ps' key
  end.

(** [parameters[key].value = v] *)
Fixpoint par_set_value (ps : Parameters) (key : string) (v : float)
  : Parameters :=
  match ps with
  | [] => []
  | par :: ps' =>
      if String.eqb (name par) key
      then {| name := name par; value := v |} :: ps'
      else par :: par_set_value ps' key v
  end.

(** ** The six profiles *)

Inductive ProfileKind : Type :=
| Zhao | NFW | Einasto | Isothermal | Burkert | Moore.

Record DMProfile : Type :=
  { kind : ProfileKind; parameters : Parameters }.

(** [LOCAL_DENSITY = 0.3 * u.GeV / (u.cm**3)], [DISTANCE_GC = 8.33 * u.kpc] *)
Definition LOCAL_DENSITY : R := 3 / 10.
Definition DISTANCE_GC : R := 833 / 100.

(** [d if x is None else x]; an omitted keyword argument is [None]. *)
Definition or_default (d : R) (x : option float) : float :=
  match x with
  | Some v => v
  | None => Some d
  end.

(** [rho_s=1 * u.Unit("GeV / cm3")], the default of every constructor. *)
Definition DEFAULT_RHO_S : R := 1.

Module ZhaoProfile.
Definition DEFAULT_SCALE_RADIUS : R := 2442 / 100.
Definition DEFAULT_ALPHA : R := 1.
Definition DEFAULT_BETA : R := 3.
Definition DEFAULT_GAMMA : R := 1.

Definition evaluate (radius r_s alpha beta gamma rho_s : ndarray)
  : result ndarray :=
  rr <- radius /. r_s ;;
  a <- rr **. gamma ;;
  b <- rr **. alpha ;;
  c <- lit 1 +. b ;;
  d <- beta -. gamma ;;
  e <- d /. alpha ;;
  f <- c **. e ;;
  g <- a *. f ;;
  rho_s /. g.

(** [__init__] *)
Definition init (r_s alpha beta gamma rho_s : option float) : DMProfile :=
  {| kind := Zhao;
     parameters :=
       [ {| name := "r_s"; value := or_default DEFAULT_SCALE_RADIUS r_s |};
         {| name := "rho_s"; value := or_default DEFAULT_RHO_S rho_s |};
         {| name := "alpha"; value := or_default DEFAULT_ALPHA alpha |};
         {| name := "beta"; value := or_default DEFAULT_BETA beta |};
         {| name := "gamma"; value := or_default DEFAULT_GAMMA gamma |} ] |}.
End ZhaoProfile.

Module NFWProfile.
Definition DEFAULT_SCALE_RADIUS : R := 2442 / 100.

Definition evaluate (radius r_s rho_s : ndarray) : result ndarray :=
  rr <- radius /. r_s ;;
  a <- lit 1 +. rr ;;
  b <- a **. lit 2 ;;
  c <- rr *. b ;;
  rho_s /. c.

(** [__init__] *)
Definition init (r_s rho_s : option float) : DMProfile :=
  {| kind := NFW;
     parameters :=
       [ {| name := "r_s"; value := or_default DEFAULT_SCALE_RADIUS r_s |};
         {| name := "rho_s"; value := or_default DEFAULT_RHO_S rho_s |} ] |}.
End NFWProfile.

Module EinastoProfile.
Definition DEFAULT_SCALE_RADIUS : R := 2844 / 100.
Definition DEFAULT_ALPHA : R := 17 / 100.

Definition evaluate (radius r_s alpha rho_s : ndarray) : result ndarray :=
  rr <- radius /. r_s ;;
  a <- lit 2 /. alpha ;;
  b <- rr **. alpha ;;
  c <- b -. lit 1 ;;
  exponent <- a *. c ;;
  d <- lit (-1) *. exponent ;;
  rho_s *. ufunc np_exp d.

(** [__init__] *)
Definition init (r_s alpha rho_s : option float) : DMProfile :=
  {| kind := Einasto;
     parameters :=
       [ {| name := "r_s"; value := or_default DEFAULT_SCALE_RADIUS r_s |};
         {| name := "alpha"; value := or_default DEFAULT_ALPHA alpha |};
         {| name := "rho_s"; value := or_default DEFAULT_RHO_S rho_s |} ] |}.
End EinastoProfile.

Module IsothermalProfile.
Definition DEFAULT_SCALE_RADIUS : R := 438 / 100.

Definition evaluate (radius r_s rho_s : ndarray) : result ndarray :=
  rr <- radius /. r_s ;;
  a <- rr **. lit 2 ;;
  b <- lit 1 +. a ;;
  rho_s /. b.

(** [__init__] *)
Definition init (r_s rho_s : option float) : DMProfile :=
  {| kind := Isothermal;
     parameters :=
       [ {| name := "r_s"; value := or_default DEFAULT_SCALE_RADIUS r_s |};
         {| name := "rho_s"; value := or_default DEFAULT_RHO_S rho_s |} ] |}.
End IsothermalProfile.

Module BurkertProfile.
Definition DEFAULT_SCALE_RADIUS : R := 1267 / 100.

Definition evaluate (radius r_s rho_s : ndarray) : result ndarray :=
  rr <- radius /. r_s ;;
  a <- lit 1 +. rr ;;
  b <- rr **. lit 2 ;;
  c <- lit 1 +. b ;;
  d <- a *. c ;;
  rho_s /. d.

(** [__init__] *)
Definition init (r_s rho_s : option float) : DMProfile :=
  {| kind := Burkert;
     parameters :=
       [ {| name := "r_s"; value := or_default DEFAULT_SCALE_RADIUS r_s |};
         {| name := "rho_s"; value := or_default DEFAULT_RHO_S rho_s |} ] |}.
End BurkertProfile.

Module MooreProfile.
Definition DEFAULT_SCALE_RADIUS : R := 3028 / 100.

Definition evaluate (radius r_s rho_s : ndarray) : result ndarray :=
  rr <- radius /. r_s ;;
  rr_ <- r_s /. radius ;;
  a <- rr_ **. lit (116 / 100) ;;
  b <- rho_s *. a ;;
  c <- lit 1 +. rr ;;
  d <- c **. lit (- (184 / 100)) ;;
  b *. d.

(** [__init__] *)
Definition init (r_s rho_s : option float) : DMProfile :=
  {| kind := Moore;
     parameters :=
       [ {| name := "r_s"; value := or_default DEFAULT_SCALE_RADIUS r_s |};
         {| name := "rho_s"; value := or_default DEFAULT_RHO_S rho_s |} ] |}.
End MooreProfile.

(** ** Keyword dispatch: [self.evaluate(radius, **kwargs)] *)

Definition arg (kw : dict) (n : string) : result ndarray :=
  match dict_get kw n with
  | Some v => Ok v
  | None => Raise (TypeError "missing required argument")
  end.

Definition accepts (names : list string) (kw : dict) : result unit :=
  if forallb (fun kv => existsb (String.eqb (fst kv)) names) kw
  then Ok tt
  else Raise (TypeError "unexpected keyword argument").

Definition evaluate (k : ProfileKind) (radius : ndarray) (kw : dict)
  : result ndarray :=
  match k with
  | Zhao =>
      _ <- accepts ["r_s"; "alpha"; "beta"; "gamma"; "rho_s"]%string kw ;;
      r_s <- arg kw "r_s" ;; alpha <- arg kw "alpha" ;;
      beta <- arg kw "beta" ;; gamma <- arg kw "gamma" ;;
      rho_s <- arg kw "rho_s" ;;
      ZhaoProfile.evaluate radius r_s alpha beta gamma rho_s
  | NFW =>
      _ <- accepts ["r_s"; "rho_s"]%string kw ;;
      r_s <- arg kw "r_s" ;; rho_s <- arg kw "rho_s" ;;
      NFWProfile.evaluate radius r_s rho_s
  | Einasto =>
      _ <- accepts ["r_s"; "alpha"; "rho_s"]%string kw ;;
      r_s <- arg kw "r_s" ;; alpha <- arg kw "alpha" ;;
      rho_s <- arg kw "rho_s" ;;
      EinastoProfile.evaluate radius r_s alpha rho_s
  | Isothermal =>
      _ <- accepts ["r_s"; "rho_s"]%string kw ;;
      r_s <- arg kw "r_s" ;; rho_s <- arg kw "rho_s" ;;
      IsothermalProfile.evaluate radius r_s rho_s
  | Burkert =>
      _ <- accepts ["r_s"; "rho_s"]%string kw ;;
      r_s <- arg kw "r_s" ;; rho_s <- arg kw "rho_s" ;;
      BurkertProfile.evaluate radius r_s rho_s
  | Moore =>
      _ <- accepts ["r_s"; "rho_s"]%string kw ;;
      r_s <- arg kw "r_s" ;; rho_s <- arg kw "rho_s" ;;
      MooreProfile.evaluate radius r_s rho_s
  end.

(** ** Methods of [DMProfile] *)

Definition method (A : Type) : Type := DMProfile -> result (A * DMProfile).

Definition mret {A} (a : A) : method A := fun self => Ok (a, self).

Definition mbind {A B} (m : method A) (k : A -> method B) : method B :=
  fun self =>
    match m self with
    | Ok (a, self') => k a self'
    | Raise e => Raise e
    end.

Definition lift {A} (r : result A) : method A :=
  fun self => match r with Ok a => Ok (a, self) | Raise e => Raise e end.

Definition get_self : method DMProfile := fun self => Ok (self, self).

Notation "x <~ m ;; k" := (mbind m (fun x => k))
  (at level 61, m at next level, right associativity) : result_scope.

(** [__call__] *)
Definition call (radius : ndarray) : method ndarray :=
  self <~ get_self ;;
  lift (evaluate (kind self) radius (kwargs_of (parameters self))).

(** [float(v)], as the setter of [Parameter.value] applies it. *)
Definition as_float (v : ndarray) : result float :=
  match v with
  | Scalar x => Ok x
  | Arr [x] => Ok x
  | Arr _ => Raise (TypeError "only size-1 arrays can be converted")
  end.

(** [self.parameters[key].value *= scale] *)
Definition par_imul (key : string) (scale : ndarray) : method unit :=
  fun self =>
    match par_get (parameters self) key with
    | None => Raise (KeyError key)
    | Some par =>
        v <- nd_mul (Scalar (value par)) scale ;;
        x <- as_float v ;;
        Ok (tt, {| kind := kind self;
                   parameters := par_set_value (parameters self) key x |})
    end.

Definition scale_to_local_density : method unit :=
  rho <~ call (lit DISTANCE_GC) ;;
  scale <~ lift (lit LOCAL_DENSITY /. rho) ;;
  par_imul "rho_s" scale.

Definition _eval_squared (radius separation : ndarray) : method ndarray :=
  rho <~ call radius ;;
  lift (a <- rho **. lit 2 ;;
        b <- a *. radius ;;
        c <- radius **. lit 2 ;;
        d <- lit DISTANCE_GC *. ufunc np_sin separation ;;
        e <- d **. lit 2 ;;
        f <- c -. e ;;
        b /. ufunc np_sqrt f).

(** ** The quadrature grid *)

(** [np.linspace(start, stop, num)]: [num] samples [i * step + start] with
    [step = (stop - start) / (num - 1)], the last one set to [stop]; a
    negative [num] raises. *)
Definition np_linspace (start stop : float) (num : Z) : result (list float) :=
  if (num <? 0)%Z
  then Raise (ValueError "Number of samples must be non-negative")
  else
    let div := (num - 1)%Z in
    let delta := np_subtract stop start in
    let step := if (0 <? div)%Z then np_divide delta (Some (IZR div))
                else delta in
    let y := map (fun i => np_add (np_multiply (Some (INR i)) step) start)
                 (seq 0 (Z.to_nat num)) in
    Ok (if (1 <? num)%Z then removelast y ++ [stop] else y).

(** [np.logspace(start, stop, num)] is [10 ** linspace(start, stop, num)]. *)
Definition np_logspace (start stop : float) (num : Z) : result (list float) :=
  y <- np_linspace start stop num ;;
  Ok (map (np_power (Some 10)) y).

Definition np_log (a : float) : float :=
  match a with
  | Some x => if Rlt_dec 0 x then Some (ln x) else None
  | None => None
  end.

(** Modelled from the spec: [gammapy.utils.integrate.trapz_loglog] is not
    among the sources.  Section 4.3, step 5: between two adjacent nodes
    [(x1, y1)], [(x2, y2)] the power law [y = a * x ** b] through both is
    integrated analytically over [[x1, x2]], the exponent [b = -1] being
    the logarithmic segment. *)
Definition loglog_segment (x1 y1 x2 y2 : float) : float :=
  let t := np_divide x2 x1 in
  let b := np_divide (np_log (np_divide y2 y1)) (np_log t) in
  match b with
  | Some bv =>
      if Req_dec_T bv (-1)
      then np_multiply (np_multiply y1 x1) (np_log t)
      else np_multiply
             (np_divide (np_multiply y1 x1) (Some (bv + 1)))
             (np_subtract (np_power t (Some (bv + 1))) (Some 1))
  | None => None
  end.

Fixpoint loglog_segments (xs ys : list float) : list float :=
  match xs, ys with
  | x1 :: ((x2 :: _) as xs'), y1 :: ((y2 :: _) as ys') =>
      loglog_segment x1 y1 x2 y2 :: loglog_segments xs' ys'
  | _, _ => []
  end.

(** Modelled from the spec: [trapz_loglog(y, x)] returns the per-segment
    contributions, one for each pair of adjacent nodes (the caller sums
    them); [y] and [x] are arrays of one length. *)
Definition trapz_loglog (y x : ndarray) : result ndarray :=
  match y, x with
  | Arr ys, Arr xs =>
      if Nat.eqb (List.length ys) (List.length xs)
      then Ok (Arr (loglog_segments xs ys))
      else Raise (ValueError "operands could not be broadcast together")
  | _, _ => Raise (ValueError "zero-dimensional arrays cannot be sliced")
  end.

(** ** Double arithmetic in the node count *)

(** The double operations [n = np.int32((logmax - logmin) * ndecade)] goes
    through: [np.log10] of a positive double, the difference and the
    product of two doubles.  Each returns a double near the exact result;
    which one is the platform's doing (the rounding of the arithmetic, the
    libm behind [np.log10]) and is left open. *)
Record DoubleOps : Type :=
  { d_log10 : R -> R;
    d_subtract : R -> R -> R;
    d_multiply : R -> R -> R }.

(** The operations without rounding. *)
Definition exact_ops : DoubleOps :=
  {| d_log10 := log10; d_subtract := Rminus; d_multiply := Rmult |}.

(** A relative error double arithmetic and the libm implementations of
    [log10] stay far below. *)
Definition relative_error : R := / 1000000000.

Definition close_to (exact computed : R) : Prop :=
  Rabs (computed - exact) <= relative_error * Rabs exact.

(** Operations whose every result is within [relative_error] of the exact
    one. *)
Definition accurate (ops : DoubleOps) : Prop :=
  (forall x, 0 < x -> close_to (log10 x) (d_log10 ops x))
  /\ (forall a b, close_to (a - b) (d_subtract ops a b))
  /\ (forall a b, close_to (a * b) (d_multiply ops a b)).

(** ** Integration *)

Section Doubles.

Variable ops : DoubleOps.

Definition double_log10 (a : float) : float :=
  match a with
  | Some x => if Rlt_dec 0 x then Some (d_log10 ops x) else None
  | None => None
  end.

(** [(logmax - logmin) * ndecade], in doubles. *)
Definition computed_span (xmin xmax : float) (ndecade : Z) : float :=
  lift2 (d_multiply ops)
    (lift2 (d_subtract ops) (double_log10 xmax) (double_log10 xmin))
    (Some (IZR ndecade)).

(** Lines 79 to 85 of [integrate_spectrum_separation]: the bounds are
    taken as magnitudes in one unit ([xmax] converted to the unit of
    [xmin]), [n = np.int32((logmax - logmin) * ndecade)] is computed in
    doubles and the grid is [np.logspace(logmin, logmax, n)], its nodes
    taken at their exact values. *)
Definition quadrature_grid (xmin xmax : float) (ndecade : Z)
  : result (list float) :=
  let logmin := np_log10 xmin in
  let logmax := np_log10 xmax in
  let n := np_int32 (computed_span xmin xmax ndecade) in
  np_logspace logmin logmax n.

Definition integrate_spectrum_separation
  (func : ndarray -> ndarray -> method ndarray)
  (xmin xmax : float) (separation : ndarray) (ndecade : Z)
  : method ndarray :=
  x <~ lift (quadrature_grid xmin xmax ndecade) ;;
  y <~ func (Arr x) separation ;;
  val <~ lift (trapz_loglog y (Arr x)) ;;
  mret (nd_sum val).

(** One kpc in cm: a parsec is [648000 / pi] astronomical units of
    149597870700 m. *)
Definition kpc_in_cm : R := 648000 / PI * 149597870700 * 1000 * 100.

(** [q.to("GeV2 / cm5")] for [q] in [GeV2 kpc / cm6]. *)
Definition to_GeV2_cm5 (q : ndarray) : ndarray :=
  ufunc (fun v => np_multiply v (Some kpc_in_cm)) q.

Definition integral (rmin rmax : float) (separation : ndarray) (ndecade : Z)
  : method ndarray :=
  i <~ integrate_spectrum_separation _eval_squared rmin rmax separation
         ndecade ;;
  mret (to_GeV2_cm5 i).

(** ** Vocabulary of the statements *)

(** A method leaves the profile object as it found it. *)
Definition leaves_unchanged {A} (m : method A) : Prop :=
  forall self,
    match m self with
    | Ok (_, self') => self' = self
    | Raise _ => True
    end.

(** Two parameter collections differ at most in the values of the
    parameters called [key]: same names in the same order, same values
    elsewhere. *)
Definition same_except (key : string) (ps ps' : Parameters) : Prop :=
  Forall2 (fun par par' =>
             name par' = name par
             /\ (name par <> key -> value par' = value par)) ps ps'.

(** A method changes at most the value of the parameter [key]. *)
Definition changes_only (key : string) (m : method unit) : Prop :=
  forall self,
    match m self with
    | Ok (_, self') =>
        kind self' = kind self
        /\ same_except key (parameters self) (parameters self')
    | Raise _ => True
    end.

(** The formulas as the documentation tabulates them (section 4.1 of the
    specification, the docstrings of the classes), in the variable
    [x = r / r_s], over the reals. *)
Definition documented_formula (k : ProfileKind)
  (x rho_s alpha beta gamma : R) : R :=
  match k with
  | Zhao =>
      rho_s * Rpower (1 / x) gamma
      * Rpower (1 + Rpower x alpha) ((gamma - beta) / alpha)
  | NFW => rho_s * (1 / x) * Rpower (1 + x) (-2)
  | Einasto => rho_s * exp (- (2 / alpha) * (Rpower x alpha - 1))
  | Isothermal => rho_s / (1 + x ^ 2)
  | Burkert => rho_s / ((1 + x) * (1 + x ^ 2))
  | Moore =>
      rho_s * Rpower (1 / x) (116 / 100) * Rpower (1 + x) (- (184 / 100))
  end.

(** The documented formula at [r / r_s = 1] with the default shape
    parameters of the variant. *)
Definition closed_form_at_scale_radius (k : ProfileKind) (rho_s : R) : R :=
  match k with
  | Zhao =>
      documented_formula Zhao 1 rho_s ZhaoProfile.DEFAULT_ALPHA
        ZhaoProfile.DEFAULT_BETA ZhaoProfile.DEFAULT_GAMMA
  | Einasto =>
      documented_formula Einasto 1 rho_s EinastoProfile.DEFAULT_ALPHA 0 0
  | k => documented_formula k 1 rho_s 0 0 0
  end.

(** The profile of kind [k] constructed with the given scale radius and
    characteristic density, every shape parameter omitted. *)
Definition with_default_shape (k : ProfileKind) (r_s rho_s : option float)
  : DMProfile :=
  match k with
  | Zhao => ZhaoProfile.init r_s None None None rho_s
  | NFW => NFWProfile.init r_s rho_s
  | Einasto => EinastoProfile.init r_s None rho_s
  | Isothermal => IsothermalProfile.init r_s rho_s
  | Burkert => BurkertProfile.init r_s rho_s
  | Moore => MooreProfile.init r_s rho_s
  end.

(** The parameter names each constructor lays down, in order. *)
Definition parameter_names (k : ProfileKind) : list string :=
  match k with
  | Zhao => ["r_s"; "rho_s"; "alpha"; "beta"; "gamma"]%string
  | Einasto => ["r_s"; "alpha"; "rho_s"]%string
  | _ => ["r_s"; "rho_s"]%string
  end.

(** A profile object as a constructor builds it (and as
    [scale_to_local_density] keeps it): the parameters of its class, with
    any values. *)
Definition constructed (p : DMProfile) : Prop :=
  map name (parameters p) = parameter_names (kind p).

(** The profile [p] with the value of [rho_s] set to [y]. *)
Definition with_rho_s (p : DMProfile) (y : float) : DMProfile :=
  {| kind := kind p; parameters := par_set_value (parameters p) "rho_s" y |}.

(** The radius of the tangent point of a line of sight at angular
    separation [psi] from the Galactic Center. *)
Definition tangent_radius (psi : R) : R := DISTANCE_GC * sin psi.

(** The integrand as the specification writes it (section 4.2):
    [rho(r)^2 * r / sqrt(r^2 - (D * sin psi)^2)], over the reals. *)
Definition integrand_formula (rho r psi : R) : R :=
  rho ^ 2 * r / sqrt (r ^ 2 - (DISTANCE_GC * sin psi) ^ 2).

(** [round(x)] as Python and numpy round: to the nearest integer, a tie
    going to the even one. *)
Definition round (x : R) : Z :=
  let f := Zfloor x in
  if Rlt_dec (x - IZR f) (1 / 2) then f
  else if Rlt_dec (1 / 2) (x - IZR f) then (f + 1)%Z
  else if Z.even f then f else (f + 1)%Z.

(** The number of nodes the specification states (section 4.3, step 2). *)
Definition stated_node_count (xmin xmax : R) (ndecade : Z) : Z :=
  round ((log10 xmax - log10 xmin) * IZR ndecade).

(** The density of each variant at radius 0, default shape parameters:
    non-finite for the cusped profiles, finite for the others. *)
Definition density_at_origin (k : ProfileKind) (rho_s : R) : float :=
  match k with
  | Zhao | NFW | Moore => None
  | Einasto => Some (rho_s * exp (2 / EinastoProfile.DEFAULT_ALPHA))
  | Isothermal | Burkert => Some rho_s
  end.

(** What a method returns, the profile object left aside. *)
Definition returned {A} (r : result (A * DMProfile)) : result A :=
  match r with
  | Ok (a, _) => Ok a
  | Raise e => Raise e
  end.

(** * Properties *)

(** ** Arithmetic of finite floats *)

Arguments np_add : simpl never.
Arguments np_subtract : simpl never.
Arguments np_multiply : simpl never.
Arguments np_divide : simpl never.
Arguments np_power : simpl never.
Arguments np_sqrt : simpl never.
Arguments np_log10 : simpl never.
Arguments np_log : simpl never.
Arguments np_int32 : simpl never.

Lemma np_add_some (x y : R) : np_add (Some x) (Some y) = Some (x + y).
Proof. reflexivity. Qed.

Lemma np_subtract_some (x y : R) :
  np_subtract (Some x) (Some y) = Some (x - y).
Proof. reflexivity. Qed.

Lemma np_multiply_some (x y : R) :
  np_multiply (Some x) (Some y) = Some (x * y).
Proof. reflexivity. Qed.

Lemma np_divide_some (x y : R) :
  y <> 0 -> np_divide (Some x) (Some y) = Some (x / y).
Proof.
  intros Hy. unfold np_divide.
  destruct (Req_dec_T y 0) as [E | _]; [contradiction | reflexivity].
Qed.

Lemma np_divide_zero (x : R) : np_divide (Some x) (Some 0) = None.
Proof.
  unfold np_divide. destruct (Req_dec_T 0 0) as [_ | N]; [reflexivity | ].
  exfalso; apply N; reflexivity.
Qed.

Lemma np_power_pos (x y : R) :
  0 < x -> np_power (Some x) (Some y) = Some (Rpower x y).
Proof.
  intros Hx. unfold np_power.
  destruct (Rlt_dec 0 x) as [_ | N]; [reflexivity | contradiction].
Qed.

Lemma np_power_int (x : R) (z : Z) :
  (0 < z)%Z ->
  np_power (Some x) (Some (IZR z)) = Some (powerRZ x z).
Proof.
  intros Hz. unfold np_power.
  destruct (Rlt_dec 0 x) as [Hx | Hx].
  - f_equal. destruct z as [ | p | p]; try lia.
    simpl. rewrite <- Rpower_pow by assumption.
    f_equal. rewrite INR_IZR_INZ. f_equal. lia.
  - destruct (Req_dec_T x 0) as [E | E].
    + assert (Hz' : 0 < IZR z) by (apply IZR_lt; assumption).
      destruct (Rlt_dec 0 (IZR z)) as [_ | N]; [ | contradiction].
      subst x. f_equal. destruct z as [ | p | p]; try lia.
      simpl. symmetry. apply pow_i. lia.
    + rewrite ZfloorZ.
      destruct (Req_dec_T (IZR z) (IZR z)) as [_ | N];
        [reflexivity | exfalso; apply N; reflexivity].
Qed.

Lemma np_power_1 (x : R) : np_power (Some x) (Some 1) = Some x.
Proof.
  rewrite (np_power_int x 1) by lia. simpl. f_equal. lra.
Qed.

Lemma np_power_2 (x : R) : np_power (Some x) (Some 2) = Some (x * x).
Proof.
  rewrite (np_power_int x 2) by lia. simpl. f_equal. lra.
Qed.

(** ** C8: the Burkert profile at the origin *)

(** C8. A Burkert profile constructed with [r_s = 12.67 kpc] and
    [rho_s = 1 GeV / cm3], called at radius [0 kpc], returns [1 GeV / cm3],
    that is [rho_s]: a finite value, no division by zero occurs, and the
    profile object is left as it was. *)
Theorem burkert_at_origin :
  let p := BurkertProfile.init (Some (Some (1267 / 100))) (Some (Some 1)) in
  call (lit 0) p = Ok (Scalar (Some 1), p)
  /\ par_get (parameters p) "rho_s"
     = Some {| name := "rho_s"; value := Some 1 |}.
Proof.
  split; [ | reflexivity].
  unfold call, mbind, get_self, lift; simpl.
  rewrite np_divide_some by lra.
  replace (0 / (1267 / 100)) with 0 by lra.
  rewrite np_power_2, !np_add_some, np_multiply_some.
  rewrite np_divide_some by lra.
  repeat f_equal. lra.
Qed.

(** ** C5: NFW is the Zhao profile with (alpha, beta, gamma) = (1, 3, 1) *)

Lemma np_power_1_float (a : float) : np_power a (Some 1) = a.
Proof. destruct a as [x | ]; [apply np_power_1 | reflexivity]. Qed.

Lemma zhao_exponent_nfw :
  np_divide (np_subtract (Some 3) (Some 1)) (Some 1) = Some 2.
Proof.
  rewrite np_subtract_some, np_divide_some by lra. f_equal. lra.
Qed.

(** C5. For every radius [r] (positive or not), scale radius [r_s] and
    characteristic density [rho_s], the Zhao formula evaluated with
    [alpha = 1], [beta = 3], [gamma = 1] returns what the NFW formula
    returns; in exact arithmetic the two are equal, not only close. *)
Theorem zhao_131_is_nfw (radius : ndarray) (r_s rho_s : float) :
  ZhaoProfile.evaluate radius (Scalar r_s) (lit 1) (lit 3) (lit 1)
                       (Scalar rho_s)
  = NFWProfile.evaluate radius (Scalar r_s) (Scalar rho_s).
Proof.
  unfold ZhaoProfile.evaluate, NFWProfile.evaluate, lit.
  destruct radius as [r | rs]; simpl.
  - rewrite zhao_exponent_nfw, np_power_1_float. reflexivity.
  - rewrite zhao_exponent_nfw.
    assert (E : map (fun x => np_power x (Some 1))
                    (map (fun x => np_divide x r_s) rs)
                = map (fun x => np_divide x r_s) rs).
    { rewrite <- (map_id (map _ rs)) at 2.
      apply map_ext. intros a. apply np_power_1_float. }
    rewrite E. reflexivity.
Qed.

(** ** C10: every formula is homogeneous of degree 1 in [rho_s] *)

Lemma np_divide_scale (c : R) (rho d : float) :
  np_divide (np_multiply (Some c) rho) d
  = np_multiply (Some c) (np_divide rho d).
Proof.
  destruct rho as [x | ], d as [y | ]; try reflexivity.
  rewrite np_multiply_some. unfold np_divide.
  destruct (Req_dec_T y 0); [reflexivity | ].
  rewrite np_multiply_some. f_equal. unfold Rdiv. ring.
Qed.

Lemma np_multiply_scale (c : R) (rho a : float) :
  np_multiply (np_multiply (Some c) rho) a
  = np_multiply (Some c) (np_multiply rho a).
Proof.
  destruct rho as [x | ], a as [y | ]; try reflexivity.
  rewrite !np_multiply_some. f_equal. ring.
Qed.

(** C10. For each of the six variants, every radius, every choice of the
    parameters and every scalar [c] (positive or not), evaluating the
    formula with [c * rho_s] in place of [rho_s] gives [c] times the density
    obtained with [rho_s]. *)
Theorem evaluate_homogeneous (c : R) (r r_s alpha beta gamma rho_s : float) :
  let scaled := Scalar (np_multiply (Some c) rho_s) in
  let times_c (m : result ndarray) := v <- m ;; lit c *. v in
  ZhaoProfile.evaluate (Scalar r) (Scalar r_s) (Scalar alpha) (Scalar beta)
                       (Scalar gamma) scaled
  = times_c (ZhaoProfile.evaluate (Scalar r) (Scalar r_s) (Scalar alpha)
                                  (Scalar beta) (Scalar gamma) (Scalar rho_s))
  /\ NFWProfile.evaluate (Scalar r) (Scalar r_s) scaled
     = times_c (NFWProfile.evaluate (Scalar r) (Scalar r_s) (Scalar rho_s))
  /\ EinastoProfile.evaluate (Scalar r) (Scalar r_s) (Scalar alpha) scaled
     = times_c (EinastoProfile.evaluate (Scalar r) (Scalar r_s)
                                        (Scalar alpha) (Scalar rho_s))
  /\ IsothermalProfile.evaluate (Scalar r) (Scalar r_s) scaled
     = times_c (IsothermalProfile.evaluate (Scalar r) (Scalar r_s)
                                           (Scalar rho_s))
  /\ BurkertProfile.evaluate (Scalar r) (Scalar r_s) scaled
     = times_c (BurkertProfile.evaluate (Scalar r) (Scalar r_s)
                                        (Scalar rho_s))
  /\ MooreProfile.evaluate (Scalar r) (Scalar r_s) scaled
     = times_c (MooreProfile.evaluate (Scalar r) (Scalar r_s)
                                      (Scalar rho_s)).
Proof.
  unfold ZhaoProfile.evaluate, NFWProfile.evaluate, EinastoProfile.evaluate,
    IsothermalProfile.evaluate, BurkertProfile.evaluate,
    MooreProfile.evaluate, lit; simpl.
  repeat split;
    rewrite ?np_divide_scale, ?np_multiply_scale; reflexivity.
Qed.

(** ** C9: which methods write to the profile *)

Lemma leaves_unchanged_ret {A} (a : A) : leaves_unchanged (mret a).
Proof. intros self. reflexivity. Qed.

Lemma leaves_unchanged_lift {A} (r : result A) : leaves_unchanged (lift r).
Proof. intros self. unfold lift. destruct r; [reflexivity | exact I]. Qed.

Lemma leaves_unchanged_get : leaves_unchanged get_self.
Proof. intros self. reflexivity. Qed.

Lemma leaves_unchanged_bind {A B} (m : method A) (k : A -> method B) :
  leaves_unchanged m -> (forall a, leaves_unchanged (k a)) ->
  leaves_unchanged (mbind m k).
Proof.
  intros Hm Hk self. unfold mbind.
  specialize (Hm self). destruct (m self) as [[a self'] | e]; [ | exact I].
  subst self'. apply Hk.
Qed.

Create HintDb frame.

#[local] Hint Resolve leaves_unchanged_ret leaves_unchanged_lift
  leaves_unchanged_get : frame.

Ltac frame :=
  repeat (apply leaves_unchanged_bind; [ | intros ?]); auto with frame.

Lemma call_frame (radius : ndarray) : leaves_unchanged (call radius).
Proof. unfold call. frame. Qed.

Lemma eval_squared_frame (radius separation : ndarray) :
  leaves_unchanged (_eval_squared radius separation).
Proof. unfold _eval_squared. frame. Qed.

Lemma integrate_frame func xmin xmax separation ndecade :
  (forall x s, leaves_unchanged (func x s)) ->
  leaves_unchanged
    (integrate_spectrum_separation func xmin xmax separation ndecade).
Proof. intros Hf. unfold integrate_spectrum_separation. frame. Qed.

Lemma same_except_set (key : string) (x : float) (ps : Parameters) :
  same_except key ps (par_set_value ps key x).
Proof.
  induction ps as [ | par ps IH]; simpl; [constructor | ].
  destruct (String.eqb (name par) key) eqn:E.
  - constructor.
    + simpl. split; [reflexivity | ].
      apply String.eqb_eq in E. intros N; contradiction.
    + clear. induction ps; constructor; auto.
  - constructor; [split; reflexivity | exact IH].
Qed.

Lemma par_imul_changes_only (key : string) (scale : ndarray) :
  changes_only key (par_imul key scale).
Proof.
  intros self. unfold par_imul.
  destruct (par_get (parameters self) key) as [par | ]; [ | exact I].
  destruct (Scalar (value par) *. scale) as [v | e]; simpl; [ | exact I].
  destruct (as_float v) as [x | e]; simpl; [ | exact I].
  split; [reflexivity | apply same_except_set].
Qed.

(** C9. [integral] and its helpers [_eval_squared] and
    [integrate_spectrum_separation] (and [__call__]) return the profile
    object exactly as they received it, for any bounds, separation and
    [ndecade]; [scale_to_local_density], the one method that writes, keeps
    the kind, the names and the order of the parameters, and the value of
    every parameter that is not called [rho_s]. *)
Theorem only_scale_to_local_density_mutates :
  (forall rmin rmax separation ndecade,
      leaves_unchanged (integral rmin rmax separation ndecade))
  /\ (forall radius separation,
         leaves_unchanged (_eval_squared radius separation))
  /\ (forall xmin xmax separation ndecade,
         leaves_unchanged
           (integrate_spectrum_separation _eval_squared xmin xmax separation
                                          ndecade))
  /\ (forall radius, leaves_unchanged (call radius))
  /\ changes_only "rho_s" scale_to_local_density.
Proof.
  repeat split.
  - intros. unfold integral. frame.
  - apply eval_squared_frame.
  - intros. apply integrate_frame, eval_squared_frame.
  - apply call_frame.
  - intros self. unfold scale_to_local_density, mbind.
    pose proof (call_frame (lit DISTANCE_GC) self) as Hc.
    destruct (call (lit DISTANCE_GC) self) as [[rho self1] | e]; [ | exact I].
    subst self1. unfold lift.
    destruct (lit LOCAL_DENSITY /. rho) as [scale | e]; [ | exact I].
    apply par_imul_changes_only.
Qed.

(** ** C7: the value at the scale radius *)

Lemma Rpower_1_base (y : R) : Rpower 1 y = 1.
Proof. unfold Rpower. rewrite ln_1, Rmult_0_r. apply exp_0. Qed.

Lemma Rpower_2_2 : Rpower 2 2 = 4.
Proof.
  replace 2 with (INR 2) at 2 by (simpl; lra).
  rewrite Rpower_pow by lra. simpl. lra.
Qed.

Lemma Rpower_2_neg2 : Rpower 2 (-2) = / 4.
Proof.
  replace (-2) with (Ropp 2) by lra.
  rewrite Rpower_Ropp, Rpower_2_2. reflexivity.
Qed.

(** Reduce an equation between two finite scalar results to the equation
    between the reals. *)
Ltac reals :=
  match goal with
  | |- Ok (Scalar (Some ?a), ?p) = Ok (Scalar (Some ?b), ?p) =>
      cut (a = b); [intros ->; reflexivity | ]
  | |- Ok (Scalar (Some ?a)) = Ok (Scalar (Some ?b)) =>
      cut (a = b); [intros ->; reflexivity | ]
  end.

(** C7. For each of the six variants and every non-zero scale radius
    [r_s], the profile constructed with default shape parameters and called
    at [r = r_s] returns the documented formula with [r / r_s = 1]; for NFW
    that value is [rho_s / 4]. *)
Theorem value_at_scale_radius (k : ProfileKind) (r_s rho_s : R) :
  r_s <> 0 ->
  let p := with_default_shape k (Some (Some r_s)) (Some (Some rho_s)) in
  call (lit r_s) p = Ok (lit (closed_form_at_scale_radius k rho_s), p)
  /\ closed_form_at_scale_radius NFW rho_s = rho_s / 4.
Proof.
  intros Hr p. split.
  - subst p. unfold call, mbind, get_self, lift, lit.
    destruct k; simpl;
      rewrite !(np_divide_some r_s r_s) by assumption;
      replace (r_s / r_s) with 1 by (field; assumption).
    + unfold ZhaoProfile.DEFAULT_ALPHA, ZhaoProfile.DEFAULT_BETA,
        ZhaoProfile.DEFAULT_GAMMA.
      rewrite zhao_exponent_nfw, np_power_1, np_add_some, np_power_2,
        np_multiply_some.
      rewrite np_divide_some by lra.
      reals.
      replace (1 / 1) with 1 by lra. rewrite !Rpower_1_base.
      replace ((1 - 3) / 1) with (-2) by lra.
      replace (1 + 1) with 2 by lra. rewrite Rpower_2_neg2. lra.
    + rewrite np_add_some, np_power_2, np_multiply_some.
      rewrite np_divide_some by lra.
      reals.
      replace (1 + 1) with 2 by lra. rewrite Rpower_2_neg2. lra.
    + unfold EinastoProfile.DEFAULT_ALPHA.
      rewrite np_divide_some by lra.
      rewrite np_power_pos by lra.
      rewrite np_subtract_some, !np_multiply_some. simpl.
      rewrite np_multiply_some. reals.
      rewrite Rpower_1_base. do 2 f_equal. lra.
    + rewrite np_power_2, np_add_some. rewrite np_divide_some by lra.
      reals. simpl. lra.
    + rewrite np_power_2, !np_add_some, np_multiply_some.
      rewrite np_divide_some by lra.
      reals. simpl. lra.
    + rewrite !np_power_pos by lra.
      rewrite np_add_some, np_multiply_some.
      rewrite np_power_pos by lra. rewrite np_multiply_some.
      reals. replace (1 / 1) with 1 by lra. reflexivity.
  - unfold closed_form_at_scale_radius, documented_formula.
    replace (1 + 1) with 2 by lra. rewrite Rpower_2_neg2. lra.
Qed.

Lemma value_at_scale_radius_witness :
  2442 / 100 <> 0
  /\ (call (lit (2442 / 100))
           (with_default_shape NFW (Some (Some (2442 / 100))) (Some (Some 1)))
      = Ok (lit (closed_form_at_scale_radius NFW 1),
            with_default_shape NFW (Some (Some (2442 / 100))) (Some (Some 1)))
      /\ closed_form_at_scale_radius NFW 1 = 1 / 4).
Proof.
  assert (H : 2442 / 100 <> 0) by lra.
  split; [exact H | exact (value_at_scale_radius NFW (2442 / 100) 1 H)].
Defined.

(** ** C4: rescaling to the local density *)

Lemma par_set_value_own (ps : Parameters) (key : string) (par : Param) :
  par_get ps key = Some par -> par_set_value ps key (value par) = ps.
Proof.
  induction ps as [ | q ps IH]; simpl; [discriminate | ].
  destruct (String.eqb (name q) key).
  - intros E; injection E as <-. destruct q; reflexivity.
  - intros E. rewrite IH by assumption. reflexivity.
Qed.

Lemma par_set_value_twice (ps : Parameters) (key : string) (a b : float) :
  par_set_value (par_set_value ps key a) key b = par_set_value ps key b.
Proof.
  induction ps as [ | q ps IH]; simpl; [reflexivity | ].
  destruct (String.eqb (name q) key) eqn:E; simpl; rewrite E.
  - reflexivity.
  - rewrite IH. reflexivity.
Qed.

Lemma par_get_set_value (ps : Parameters) (key : string) (par : Param)
  (a : float) :
  par_get ps key = Some par ->
  par_get (par_set_value ps key a) key
  = Some {| name := name par; value := a |}.
Proof.
  induction ps as [ | q ps IH]; simpl; [discriminate | ].
  destruct (String.eqb (name q) key) eqn:E; simpl; rewrite E.
  - intros H; injection H as <-. reflexivity.
  - exact IH.
Qed.

Lemma np_multiply_1 (a : float) : np_multiply a (Some 1) = a.
Proof.
  destruct a as [x | ]; [ | reflexivity].
  rewrite np_multiply_some. f_equal. lra.
Qed.

Lemma np_multiply_comm (a b : float) : np_multiply a b = np_multiply b a.
Proof.
  destruct a as [x | ], b as [y | ]; try reflexivity.
  rewrite !np_multiply_some. f_equal. lra.
Qed.

Lemma np_divide_scale_r (c : R) (rho d : float) :
  np_divide (np_multiply rho (Some c)) d
  = np_multiply (np_divide rho d) (Some c).
Proof.
  rewrite (np_multiply_comm rho), np_divide_scale. apply np_multiply_comm.
Qed.

Lemma np_multiply_scale_r (c : R) (rho a : float) :
  np_multiply (np_multiply rho (Some c)) a
  = np_multiply (np_multiply rho a) (Some c).
Proof.
  rewrite (np_multiply_comm rho), np_multiply_scale. apply np_multiply_comm.
Qed.

(** Forces the parameter list of a constructed profile into the shape its
    names prescribe. *)
Ltac shape H :=
  repeat match type of H with
    | map name ?ps = _ :: _ =>
        let n := fresh "n" in
        let x := fresh "x" in
        let E := fresh "E" in
        destruct ps as [ | [n x] ps]; simpl in H; [discriminate H | ];
        injection H as E H; subst n
    | map name ?ps = [] =>
        destruct ps; [clear H | discriminate H]
    end.

Lemma constructed_has_rho_s (p : DMProfile) :
  constructed p ->
  exists rho : float,
    par_get (parameters p) "rho_s" = Some {| name := "rho_s"; value := rho |}.
Proof.
  destruct p as [k ps]. unfold constructed; simpl. intros H.
  destruct k; simpl in H; shape H; eexists; reflexivity.
Qed.

(** On a constructed profile the density at a scalar radius is a function
    of [rho_s] that commutes with rescaling. *)
Lemma call_with_rho_s (p : DMProfile) (r : float) :
  constructed p ->
  exists g : float -> float,
    (forall y, call (Scalar r) (with_rho_s p y)
               = Ok (Scalar (g y), with_rho_s p y))
    /\ (forall c y, g (np_multiply y (Some c)) = np_multiply (g y) (Some c)).
Proof.
  destruct p as [k ps]. unfold constructed; simpl. intros H.
  destruct k; simpl in H; shape H;
    (eexists; split;
     [ intros y; unfold call, mbind, get_self, lift, with_rho_s; simpl;
       reflexivity
     | intros c y; simpl;
       rewrite ?np_divide_scale_r, ?np_multiply_scale_r; reflexivity ]).
Qed.

Lemma scale_step (p : DMProfile) (rho : float) (v : R) :
  par_get (parameters p) "rho_s" = Some {| name := "rho_s"; value := rho |} ->
  call (lit DISTANCE_GC) p = Ok (Scalar (Some v), p) ->
  v <> 0 ->
  scale_to_local_density p
  = Ok (tt, with_rho_s p (np_multiply rho (Some (LOCAL_DENSITY / v)))).
Proof.
  intros Hrho Hcall Hv.
  unfold scale_to_local_density, mbind. rewrite Hcall.
  unfold lift, lit; simpl. rewrite np_divide_some by assumption.
  unfold par_imul. rewrite Hrho. reflexivity.
Qed.

(** C4. For every constructed profile whose density at [DISTANCE_GC] is
    finite and non-zero, [scale_to_local_density] succeeds; afterwards the
    profile evaluates at [DISTANCE_GC] to [LOCAL_DENSITY] (exactly, in exact
    arithmetic); the scale factor of a second call is 1, and the second call
    returns the profile unchanged. *)
Theorem scale_to_local_density_idempotent (p : DMProfile) (v : R) :
  constructed p ->
  call (lit DISTANCE_GC) p = Ok (Scalar (Some v), p) ->
  v <> 0 ->
  exists p1 : DMProfile,
    scale_to_local_density p = Ok (tt, p1)
    /\ call (lit DISTANCE_GC) p1 = Ok (lit LOCAL_DENSITY, p1)
    /\ lit LOCAL_DENSITY /. lit LOCAL_DENSITY = Ok (lit 1)
    /\ scale_to_local_density p1 = Ok (tt, p1).
Proof.
  intros Hc Hcall Hv.
  destruct (constructed_has_rho_s p Hc) as [rho Hrho].
  destruct (call_with_rho_s p (Some DISTANCE_GC) Hc) as [g [Hg Hh]].
  assert (Hp : with_rho_s p rho = p).
  { unfold with_rho_s.
    pose proof (par_set_value_own _ _ _ Hrho) as E; simpl in E.
    rewrite E. destruct p; reflexivity. }
  assert (Hgrho : g rho = Some v).
  { specialize (Hg rho). rewrite Hp in Hg. unfold lit in Hcall.
    rewrite Hcall in Hg. injection Hg as Hg. symmetry; exact Hg. }
  assert (HL : LOCAL_DENSITY <> 0) by (unfold LOCAL_DENSITY; lra).
  set (rho1 := np_multiply rho (Some (LOCAL_DENSITY / v))).
  assert (Hcall1 : call (lit DISTANCE_GC) (with_rho_s p rho1)
                   = Ok (lit LOCAL_DENSITY, with_rho_s p rho1)).
  { unfold lit. rewrite Hg. unfold rho1.
    rewrite Hh, Hgrho, np_multiply_some.
    replace (v * (LOCAL_DENSITY / v)) with LOCAL_DENSITY
      by (field; assumption).
    reflexivity. }
  exists (with_rho_s p rho1). repeat split.
  - apply scale_step; assumption.
  - exact Hcall1.
  - unfold lit, nd_div; simpl. rewrite np_divide_some by assumption.
    replace (LOCAL_DENSITY / LOCAL_DENSITY) with 1 by (field; assumption).
    reflexivity.
  - rewrite (scale_step (with_rho_s p rho1) rho1 LOCAL_DENSITY).
    + replace (LOCAL_DENSITY / LOCAL_DENSITY) with 1 by (field; assumption).
      rewrite np_multiply_1. unfold with_rho_s; simpl.
      rewrite par_set_value_twice. reflexivity.
    + simpl. apply (par_get_set_value _ _ _ rho1 Hrho).
    + exact Hcall1.
    + assumption.
Qed.

Lemma scale_to_local_density_idempotent_witness :
  exists p1 : DMProfile,
    scale_to_local_density
      (IsothermalProfile.init (Some (Some DISTANCE_GC)) None) = Ok (tt, p1)
    /\ call (lit DISTANCE_GC) p1 = Ok (lit LOCAL_DENSITY, p1)
    /\ lit LOCAL_DENSITY /. lit LOCAL_DENSITY = Ok (lit 1)
    /\ scale_to_local_density p1 = Ok (tt, p1).
Proof.
  apply (scale_to_local_density_idempotent
           (IsothermalProfile.init (Some (Some DISTANCE_GC)) None) (1 / 2)).
  - reflexivity.
  - unfold call, mbind, get_self, lift, lit, DISTANCE_GC,
      DEFAULT_RHO_S; simpl.
    rewrite np_divide_some by lra.
    replace (833 / 100 / (833 / 100)) with 1 by lra.
    rewrite np_power_2, np_add_some. rewrite np_divide_some by lra.
    reals. unfold DEFAULT_RHO_S. lra.
  - lra.
Defined.

Lemma init_constructed :
  (forall r_s alpha beta gamma rho_s,
      constructed (ZhaoProfile.init r_s alpha beta gamma rho_s))
  /\ (forall r_s rho_s, constructed (NFWProfile.init r_s rho_s))
  /\ (forall r_s alpha rho_s, constructed (EinastoProfile.init r_s alpha rho_s))
  /\ (forall r_s rho_s, constructed (IsothermalProfile.init r_s rho_s))
  /\ (forall r_s rho_s, constructed (BurkertProfile.init r_s rho_s))
  /\ (forall r_s rho_s, constructed (MooreProfile.init r_s rho_s)).
Proof. repeat split. Qed.

(** ** C6: the line-of-sight integrand *)

Lemma np_sqrt_pos (x : R) : 0 < x -> np_sqrt (Some x) = Some (sqrt x).
Proof.
  intros Hx. unfold np_sqrt.
  destruct (Rlt_dec x 0) as [N | _]; [lra | reflexivity].
Qed.

Lemma np_sqrt_neg (x : R) : x < 0 -> np_sqrt (Some x) = None.
Proof.
  intros Hx. unfold np_sqrt.
  destruct (Rlt_dec x 0) as [_ | N]; [reflexivity | contradiction].
Qed.

Lemma eval_squared_scalar (p : DMProfile) (r psi rho : R) :
  call (lit r) p = Ok (lit rho, p) ->
  _eval_squared (lit r) (lit psi) p
  = Ok (Scalar (np_divide
                  (Some (rho * rho * r))
                  (np_sqrt (Some (r * r
                                  - tangent_radius psi * tangent_radius psi)))),
        p).
Proof.
  intros Hcall. unfold _eval_squared, mbind. rewrite Hcall.
  unfold lift, lit; simpl.
  rewrite !np_power_2, !np_multiply_some, np_power_2, np_subtract_some.
  reflexivity.
Qed.

(** C6. For every profile, radius [r] at which the profile evaluates to a
    finite [rho], and separation [psi]: where [r^2] exceeds the square of
    the tangent radius [D * sin psi] (in particular for
    [0 <= D * sin psi < r]) the integrand is
    [rho^2 * r / sqrt (r^2 - (D * sin psi)^2)]; at or below the tangent
    radius nothing is clamped or rejected, the result is the non-finite
    value the arithmetic yields. *)
Theorem eval_squared_formula (p : DMProfile) (r psi rho : R) :
  call (lit r) p = Ok (lit rho, p) ->
  ((tangent_radius psi) ^ 2 < r ^ 2 ->
   _eval_squared (lit r) (lit psi) p
   = Ok (lit (integrand_formula rho r psi), p))
  /\ (r ^ 2 <= (tangent_radius psi) ^ 2 ->
      _eval_squared (lit r) (lit psi) p = Ok (Scalar None, p))
  /\ (0 <= tangent_radius psi < r -> (tangent_radius psi) ^ 2 < r ^ 2).
Proof.
  intros Hcall. rewrite (eval_squared_scalar p r psi rho Hcall).
  set (t := tangent_radius psi). repeat split.
  - intros H. rewrite np_sqrt_pos by nra.
    assert (Hs : 0 < sqrt (r * r - t * t)) by (apply sqrt_lt_R0; nra).
    rewrite np_divide_some by lra.
    unfold lit, integrand_formula. fold (tangent_radius psi). fold t.
    replace (r ^ 2 - t ^ 2) with (r * r - t * t) by ring.
    replace (rho ^ 2) with (rho * rho) by ring. reflexivity.
  - intros H. destruct (Req_dec_T (r * r - t * t) 0) as [E | N].
    + rewrite E. unfold np_sqrt.
      destruct (Rlt_dec 0 0) as [F | _]; [lra | ].
      rewrite sqrt_0, np_divide_zero. reflexivity.
    + rewrite np_sqrt_neg by nra. reflexivity.
  - intros [H0 H1]. nra.
Qed.

Lemma isothermal_unit_at_1 :
  call (lit 1) (IsothermalProfile.init (Some (Some 1)) None)
  = Ok (lit (1 / 2), IsothermalProfile.init (Some (Some 1)) None).
Proof.
  unfold call, mbind, get_self, lift, lit; simpl.
  rewrite np_divide_some by lra.
  replace (1 / 1) with 1 by lra.
  rewrite np_power_2, np_add_some. rewrite np_divide_some by lra.
  reals. unfold DEFAULT_RHO_S. lra.
Qed.

Lemma eval_squared_formula_witness :
  let p := IsothermalProfile.init (Some (Some 1)) None in
  call (lit 1) p = Ok (lit (1 / 2), p)
  /\ _eval_squared (lit 1) (lit 0) p
     = Ok (lit (integrand_formula (1 / 2) 1 0), p).
Proof.
  split; [exact isothermal_unit_at_1 | ].
  apply (eval_squared_formula _ 1 0 (1 / 2) isothermal_unit_at_1).
  unfold tangent_radius. rewrite sin_0. lra.
Defined.

(** ** C2: the number of grid nodes *)

Lemma ln_10_pos : 0 < ln 10.
Proof. rewrite <- ln_1. apply ln_increasing; lra. Qed.

Lemma log10_1 : log10 1 = 0.
Proof. unfold log10. rewrite ln_1. lra. Qed.

Lemma log10_increasing (x y : R) : 0 < x -> x < y -> log10 x < log10 y.
Proof.
  intros Hx Hxy. unfold log10.
  apply Rmult_lt_compat_r;
    [apply Rinv_0_lt_compat, ln_10_pos | apply ln_increasing; assumption].
Qed.

Lemma np_log10_pos (x : R) : 0 < x -> np_log10 (Some x) = Some (log10 x).
Proof.
  intros Hx. unfold np_log10.
  destruct (Rlt_dec 0 x) as [_ | N]; [reflexivity | contradiction].
Qed.

Lemma np_int32_in_range (x : R) (n : Z) :
  trunc x = n -> (-2147483648 <= n <= 2147483647)%Z ->
  np_int32 (Some x) = n.
Proof.
  intros Hn Hr. unfold np_int32. rewrite Hn.
  replace (-2147483648 <=? n)%Z with true by (symmetry; apply Z.leb_le; lia).
  replace (n <=? 2147483647)%Z with true by (symmetry; apply Z.leb_le; lia).
  reflexivity.
Qed.

Lemma computed_span_pos (xmin xmax : R) (ndecade : Z) :
  0 < xmin -> 0 < xmax ->
  computed_span (Some xmin) (Some xmax) ndecade
  = Some (d_multiply ops
            (d_subtract ops (d_log10 ops xmax) (d_log10 ops xmin))
            (IZR ndecade)).
Proof.
  intros Hmin Hmax. unfold computed_span, double_log10.
  destruct (Rlt_dec 0 xmax) as [_ | N]; [ | contradiction].
  destruct (Rlt_dec 0 xmin) as [_ | N]; [ | contradiction].
  reflexivity.
Qed.

Lemma removelast_snoc_length {A} (l : list A) (x : A) :
  l <> [] -> List.length (removelast l ++ [x]) = List.length l.
Proof.
  intros Hl.
  rewrite (app_removelast_last x Hl) at 2.
  rewrite !length_app. reflexivity.
Qed.

Lemma np_linspace_length (start stop : float) (num : Z) :
  (0 <= num)%Z ->
  exists ys, np_linspace start stop num = Ok ys
             /\ List.length ys = Z.to_nat num.
Proof.
  intros Hn. unfold np_linspace.
  replace (num <? 0)%Z with false by (symmetry; apply Z.ltb_ge; lia).
  eexists; split; [reflexivity | ].
  destruct (1 <? num)%Z eqn:E.
  - apply Z.ltb_lt in E. rewrite removelast_snoc_length.
    + rewrite length_map, length_seq. reflexivity.
    + destruct (Z.to_nat num) eqn:En; [lia | discriminate].
  - rewrite length_map, length_seq. reflexivity.
Qed.

Lemma quadrature_grid_count (xmin xmax : float) (ndecade : Z) :
  (0 <= np_int32 (computed_span xmin xmax ndecade))%Z ->
  exists xs,
    quadrature_grid xmin xmax ndecade = Ok xs
    /\ List.length xs = Z.to_nat (np_int32 (computed_span xmin xmax ndecade)).
Proof.
  intros Hn. unfold quadrature_grid, np_logspace.
  destruct (np_linspace_length (np_log10 xmin) (np_log10 xmax) _ Hn)
    as [ys [E L]].
  rewrite E; simpl. eexists; split; [reflexivity | ].
  rewrite length_map. exact L.
Qed.

Lemma trunc_nonneg (x : R) : 0 <= x -> trunc x = Zfloor x /\ (0 <= Zfloor x)%Z.
Proof.
  intros Hx. unfold trunc.
  destruct (Rle_dec 0 x) as [_ | N]; [ | contradiction].
  split; [reflexivity | apply Zfloor_lub; exact Hx].
Qed.

(** C2, as the code has it. For positive bounds in one unit ([xmax]
    converted to the unit of [xmin]) the grid of
    [integrate_spectrum_separation] has exactly [n] nodes, where [n] is the
    truncation towards zero of the double [s] the code computes for
    [(log10 xmax - log10 xmin) * ndecade], as long as [0 <= n] fits 32
    bits: [np.int32] truncates, it does not round, and it truncates the
    computed span, which may lie an ulp off the exact one. *)
Theorem grid_node_count (xmin xmax : R) (ndecade : Z) :
  0 < xmin -> 0 < xmax ->
  let s := d_multiply ops
             (d_subtract ops (d_log10 ops xmax) (d_log10 ops xmin))
             (IZR ndecade) in
  (0 <= trunc s <= 2147483647)%Z ->
  exists xs,
    quadrature_grid (Some xmin) (Some xmax) ndecade = Ok xs
    /\ Z.of_nat (List.length xs) = trunc s.
Proof.
  intros Hmin Hmax s Hr.
  assert (Hn : np_int32 (computed_span (Some xmin) (Some xmax) ndecade)
               = trunc s).
  { rewrite computed_span_pos by assumption.
    apply np_int32_in_range; [reflexivity | lia]. }
  destruct (quadrature_grid_count (Some xmin) (Some xmax) ndecade)
    as [xs [E L]]; [rewrite Hn; lia | ].
  exists xs. split; [exact E | ]. rewrite L, Hn. lia.
Qed.

Lemma log10_40_bounds : 3 / 2 < log10 40 < 2.
Proof.
  pose proof ln_10_pos as H10.
  assert (H2 : ln 100 = 2 * ln 10).
  { replace 100 with (10 * 10) by lra. rewrite ln_mult by lra. lra. }
  assert (H3 : ln 1000 = 3 * ln 10).
  { replace 1000 with (10 * (10 * 10)) by lra. rewrite !ln_mult by lra. lra. }
  assert (H4 : ln 1600 = 2 * ln 40).
  { replace 1600 with (40 * 40) by lra. rewrite ln_mult by lra. lra. }
  assert (Ha : ln 40 < ln 100) by (apply ln_increasing; lra).
  assert (Hb : ln 1000 < ln 1600) by (apply ln_increasing; lra).
  unfold log10. split.
  - apply (Rmult_lt_reg_r (ln 10)); [exact H10 | ].
    replace (ln 40 / ln 10 * ln 10) with (ln 40) by (field; lra). lra.
  - apply (Rmult_lt_reg_r (ln 10)); [exact H10 | ].
    replace (ln 40 / ln 10 * ln 10) with (ln 40) by (field; lra). lra.
Qed.

Lemma span_1_40 : Zfloor ((log10 40 - log10 1) * IZR 1) = 1%Z.
Proof.
  pose proof log10_40_bounds as [Hl Hu]. rewrite log10_1.
  apply Zfloor_eq. lra.
Qed.

(** ** C1: a batch of separations *)

Lemma broadcast_singleton (f : float -> float -> float) (xs : list float)
  (y : float) :
  broadcast f (Arr xs) (Arr [y]) = broadcast f (Arr xs) (Scalar y).
Proof.
  destruct xs as [ | a [ | b xs]]; reflexivity.
Qed.

Lemma eval_squared_singleton (xs : list float) (s : float) (p : DMProfile) :
  _eval_squared (Arr xs) (Arr [s]) p = _eval_squared (Arr xs) (Scalar s) p.
Proof.
  unfold _eval_squared, mbind.
  destruct (call (Arr xs) p) as [[rho p'] | e]; [ | reflexivity].
  f_equal.
  destruct (rho **. lit 2) as [a | e]; [ | reflexivity]. cbn [rbind].
  destruct (a *. Arr xs) as [b | e]; [ | reflexivity]. cbn [rbind].
  change (Arr xs **. lit 2)
    with (Ok (Arr (map (fun x => np_power x (Some 2)) xs))).
  cbn [rbind].
  change (lit DISTANCE_GC *. ufunc np_sin (Arr [s]))
    with (Ok (Arr [np_multiply (Some DISTANCE_GC) (np_sin s)])).
  change (lit DISTANCE_GC *. ufunc np_sin (Scalar s))
    with (Ok (Scalar (np_multiply (Some DISTANCE_GC) (np_sin s)))).
  cbn [rbind].
  set (d := np_multiply (Some DISTANCE_GC) (np_sin s)).
  change (Arr [d] **. lit 2) with (Ok (Arr [np_power d (Some 2)])).
  change (Scalar d **. lit 2) with (Ok (Scalar (np_power d (Some 2)))).
  cbn [rbind]. unfold nd_sub. rewrite broadcast_singleton. reflexivity.
Qed.

Lemma integrate_returns_scalar func xmin xmax separation ndecade
  (p : DMProfile) :
  match integrate_spectrum_separation func xmin xmax separation ndecade p with
  | Ok (v, _) => exists x : float, v = Scalar x
  | Raise _ => True
  end.
Proof.
  unfold integrate_spectrum_separation, mbind.
  destruct (lift (quadrature_grid xmin xmax ndecade) p) as [[x p1] | e];
    [ | exact I].
  destruct (func (Arr x) separation p1) as [[y p2] | e]; [ | exact I].
  destruct (lift (trapz_loglog y (Arr x)) p2) as [[val p3] | e]; [ | exact I].
  unfold mret. destruct val as [v | vs]; eexists; reflexivity.
Qed.

(** C1, as the code has it. [val.sum()] has no axis: whatever the
    separation, scalar or array, [integral] returns one scalar when it
    returns, never an array with one value per separation.  A batch of one
    separation gives exactly the result of that separation passed as a
    scalar. *)
Theorem integral_batch (p : DMProfile) (rmin rmax : float) (ndecade : Z) :
  (forall separation : ndarray,
      match integral rmin rmax separation ndecade p with
      | Ok (v, _) => exists x : float, v = Scalar x
      | Raise _ => True
      end)
  /\ (forall s : float,
         integral rmin rmax (Arr [s]) ndecade p
         = integral rmin rmax (Scalar s) ndecade p).
Proof.
  split.
  - intros separation. unfold integral, mbind.
    pose proof (integrate_returns_scalar _eval_squared rmin rmax separation
                                         ndecade p) as H.
    destruct (integrate_spectrum_separation _eval_squared rmin rmax
                                            separation ndecade p)
      as [[v p1] | e]; [ | exact I].
    destruct H as [x ->]. unfold mret. eexists; reflexivity.
  - intros s. unfold integral, integrate_spectrum_separation, mbind.
    destruct (lift (quadrature_grid rmin rmax ndecade) p) as [[x p1] | e];
      [ | reflexivity].
    rewrite eval_squared_singleton. reflexivity.
Qed.

Lemma span_1_100 : trunc ((log10 100 - log10 1) * IZR 1) = 2%Z.
Proof.
  assert (H : log10 100 = 2).
  { unfold log10. replace 100 with (10 * 10) by lra.
    rewrite ln_mult by lra. pose proof ln_10_pos. field. lra. }
  rewrite H, log10_1.
  replace ((2 - 0) * 1) with (IZR 2) by lra.
  destruct (trunc_nonneg (IZR 2)) as [-> _]; [lra | apply ZfloorZ].
Qed.


(** ** C3: degenerate bounds *)

Lemma integral_few_nodes (p : DMProfile) (xs : list float) (s : float)
  (xmin xmax : float) (ndecade : Z) :
  constructed p ->
  quadrature_grid xmin xmax ndecade = Ok xs ->
  (List.length xs <= 1)%nat ->
  integral xmin xmax (Scalar s) ndecade p = Ok (lit 0, p).
Proof.
  destruct p as [k ps]. unfold constructed; simpl. intros H E L.
  unfold integral, integrate_spectrum_separation, mbind.
  rewrite E. unfold lift at 1.
  destruct xs as [ | a [ | b xs]]; [ | | simpl in L; lia];
    destruct k; simpl in H; shape H;
    unfold _eval_squared, call, mbind, get_self, lift, mret; simpl;
    rewrite np_multiply_some, Rmult_0_l; reflexivity.
Qed.

Lemma quadrature_grid_negative (xmin xmax : float) (ndecade : Z) :
  (np_int32 (computed_span xmin xmax ndecade) < 0)%Z ->
  quadrature_grid xmin xmax ndecade
  = Raise (ValueError "Number of samples must be non-negative").
Proof.
  intros Hn. unfold quadrature_grid, np_logspace, np_linspace.
  replace (np_int32 (computed_span xmin xmax ndecade) <? 0)%Z with true
    by (symmetry; apply Z.ltb_lt; exact Hn).
  reflexivity.
Qed.

(** C3, as the code has it. No bound is validated; what happens is decided
    by [n = np.int32((logmax - logmin) * ndecade)] as the code computes it
    in doubles.  Where [n] is 0 or 1 (so for [xmax = xmin], and for [xmax]
    close to [xmin] on either side) [integral] of a constructed profile at a
    scalar separation returns zero and raises nothing; where [n] is
    negative (bounds far enough in reverse order, and a bound that is zero
    or negative, whose logarithm is not finite) the call fails with the
    [ValueError] of [np.logspace] on a negative number of samples. *)
Theorem degenerate_bounds (p : DMProfile) (xmin xmax : float) (s : float)
  (ndecade : Z) :
  constructed p ->
  let n := np_int32 (computed_span xmin xmax ndecade) in
  ((0 <= n <= 1)%Z ->
   integral xmin xmax (Scalar s) ndecade p = Ok (lit 0, p))
  /\ ((n < 0)%Z ->
      integral xmin xmax (Scalar s) ndecade p
      = Raise (ValueError "Number of samples must be non-negative")).
Proof.
  intros Hc n. split; intros Hn.
  - destruct (quadrature_grid_count xmin xmax ndecade) as [xs [E L]];
      [fold n; lia | ].
    apply (integral_few_nodes p xs s _ _ _ Hc E). rewrite L. fold n. lia.
  - unfold integral, integrate_spectrum_separation, mbind.
    rewrite (quadrature_grid_negative xmin xmax ndecade Hn).
    reflexivity.
Qed.

(** * Further properties of the profiles *)

(** ** Evaluation over an array of radii *)

Lemma zip_with_map (f : float -> float -> float) (g h : float -> float)
  (xs : list float) :
  zip_with f (map g xs) (map h xs) = map (fun x => f (g x) (h x)) xs.
Proof.
  induction xs as [ | x xs IH]; simpl; [reflexivity | ].
  rewrite IH. reflexivity.
Qed.

Lemma broadcast_map_map (f : float -> float -> float) (g h : float -> float)
  (xs : list float) :
  broadcast f (Arr (map g xs)) (Arr (map h xs))
  = Ok (Arr (map (fun x => f (g x) (h x)) xs)).
Proof.
  unfold broadcast. rewrite !length_map, Nat.eqb_refl, zip_with_map.
  reflexivity.
Qed.

Lemma broadcast_map_scalar (f : float -> float -> float) (g : float -> float)
  (xs : list float) (y : float) :
  broadcast f (Arr (map g xs)) (Scalar y)
  = Ok (Arr (map (fun x => f (g x) y) xs)).
Proof. unfold broadcast. rewrite map_map. reflexivity. Qed.

Lemma broadcast_scalar_map (f : float -> float -> float) (g : float -> float)
  (xs : list float) (y : float) :
  broadcast f (Scalar y) (Arr (map g xs))
  = Ok (Arr (map (fun x => f y (g x)) xs)).
Proof. unfold broadcast. rewrite map_map. reflexivity. Qed.

Lemma ufunc_map (f g : float -> float) (xs : list float) :
  ufunc f (Arr (map g xs)) = Arr (map (fun x => f (g x)) xs).
Proof. unfold ufunc. rewrite map_map. reflexivity. Qed.

Lemma ufunc_scalar (f : float -> float) (x : float) :
  ufunc f (Scalar x) = Scalar (f x).
Proof. reflexivity. Qed.

Lemma broadcast_scalars (f : float -> float -> float) (x y : float) :
  broadcast f (Scalar x) (Scalar y) = Ok (Scalar (f x y)).
Proof. reflexivity. Qed.

(** Runs a chain of array operations whose array operands are all images of
    one list. *)
Ltac vectorise :=
  unfold nd_add, nd_sub, nd_mul, nd_div, nd_pow, lit, quantity;
  cbn [value];
  repeat (first [ rewrite broadcast_map_map
                | rewrite broadcast_scalars
                | rewrite ufunc_scalar
                | rewrite broadcast_map_scalar
                | rewrite broadcast_scalar_map
                | rewrite ufunc_map ];
          cbn [rbind]).

Lemma call_map (p : DMProfile) :
  constructed p ->
  exists g : float -> float,
    (forall x, call (Scalar x) p = Ok (Scalar (g x), p))
    /\ (forall (h : float -> float) xs,
           call (Arr (map h xs)) p
           = Ok (Arr (map (fun x => g (h x)) xs), p)).
Proof.
  destruct p as [k ps]. unfold constructed; simpl. intros H.
  destruct k; simpl in H; shape H;
    (eexists; split;
     [ intros y; unfold call, mbind, get_self, lift; simpl; reflexivity
     | intros h xs; unfold call, mbind, get_self, lift;
       cbn [kind parameters kwargs_of fold_left dict_set name quantity value
            String.eqb Ascii.eqb Bool.eqb evaluate accepts forallb existsb
            fst arg dict_get rbind orb andb];
       unfold ZhaoProfile.evaluate, NFWProfile.evaluate,
         EinastoProfile.evaluate, IsothermalProfile.evaluate,
         BurkertProfile.evaluate, MooreProfile.evaluate;
       vectorise; reflexivity ]).
Qed.

(** X1. A constructed profile called at a scalar radius or at an array of radii
    never raises, and the array call returns, node by node and in order,
    what the scalar call returns. *)
Theorem call_vectorised (p : DMProfile) :
  constructed p ->
  exists g : float -> float,
    (forall x, call (Scalar x) p = Ok (Scalar (g x), p))
    /\ (forall xs, call (Arr xs) p = Ok (Arr (map g xs), p)).
Proof.
  intros Hc. destruct (call_map p Hc) as [g [Hs Ha]].
  exists g. split; [exact Hs | ].
  intros xs. specialize (Ha (fun x => x) xs).
  rewrite map_id in Ha. exact Ha.
Qed.

Lemma call_vectorised_witness :
  exists g : float -> float,
    (forall x, call (Scalar x) (NFWProfile.init None None)
               = Ok (Scalar (g x), NFWProfile.init None None))
    /\ (forall xs, call (Arr xs) (NFWProfile.init None None)
                   = Ok (Arr (map g xs), NFWProfile.init None None)).
Proof.
  apply (call_vectorised (NFWProfile.init None None)). reflexivity.
Defined.

(** ** The integrand over a grid of radii *)

Lemma eval_squared_map (p : DMProfile) (s : float) :
  constructed p ->
  exists f : float -> float,
    (forall x, _eval_squared (Scalar x) (Scalar s) p = Ok (Scalar (f x), p))
    /\ (forall (h : float -> float) xs,
           _eval_squared (Arr (map h xs)) (Scalar s) p
           = Ok (Arr (map (fun x => f (h x)) xs), p)).
Proof.
  intros Hc. destruct (call_map p Hc) as [g [Hs Ha]].
  eexists; split.
  - intros x. unfold _eval_squared, mbind. rewrite Hs.
    unfold lift; simpl. reflexivity.
  - intros h xs. unfold _eval_squared, mbind. rewrite Ha.
    unfold lift. vectorise. reflexivity.
Qed.

(** X2. For a constructed profile and a scalar separation the integrand never
    raises, and over a grid of radii it is, node by node and in order, the
    integrand of the single radius. *)
Theorem eval_squared_vectorised (p : DMProfile) (s : float) :
  constructed p ->
  exists f : float -> float,
    (forall x, _eval_squared (Scalar x) (Scalar s) p = Ok (Scalar (f x), p))
    /\ (forall xs,
           _eval_squared (Arr xs) (Scalar s) p = Ok (Arr (map f xs), p)).
Proof.
  intros Hc. destruct (eval_squared_map p s Hc) as [f [Hs Ha]].
  exists f. split; [exact Hs | ].
  intros xs. specialize (Ha (fun x => x) xs).
  rewrite map_id in Ha. exact Ha.
Qed.

Lemma eval_squared_vectorised_witness :
  exists f : float -> float,
    (forall x, _eval_squared (Scalar x) (Scalar (Some 0))
                             (BurkertProfile.init None None)
               = Ok (Scalar (f x), BurkertProfile.init None None))
    /\ (forall xs,
           _eval_squared (Arr xs) (Scalar (Some 0))
                         (BurkertProfile.init None None)
           = Ok (Arr (map f xs), BurkertProfile.init None None)).
Proof.
  apply (eval_squared_vectorised (BurkertProfile.init None None)).
  reflexivity.
Defined.

Lemma broadcast_mismatch (f : float -> float -> float) (xs ys : list float) :
  List.length xs <> List.length ys ->
  (2 <= List.length xs)%nat -> (2 <= List.length ys)%nat ->
  broadcast f (Arr xs) (Arr ys)
  = Raise (ValueError "operands could not be broadcast together").
Proof.
  intros Hne Hx Hy. unfold broadcast.
  replace (Nat.eqb (List.length xs) (List.length ys)) with false
    by (symmetry; apply Nat.eqb_neq; exact Hne).
  destruct xs as [ | a [ | b xs]]; simpl in Hx; try lia.
  destruct ys as [ | c [ | d ys]]; simpl in Hy; try lia.
  reflexivity.
Qed.

Lemma eval_squared_mismatch_map (p : DMProfile) (h h' : float -> float)
  (xs ss : list float) :
  constructed p ->
  List.length xs <> List.length ss ->
  (2 <= List.length xs)%nat -> (2 <= List.length ss)%nat ->
  _eval_squared (Arr (map h xs)) (Arr (map h' ss)) p
  = Raise (ValueError "operands could not be broadcast together").
Proof.
  intros Hc Hne Hx Hs. destruct (call_map p Hc) as [g [_ Ha]].
  unfold _eval_squared, mbind. rewrite Ha.
  unfold lift. vectorise.
  rewrite broadcast_mismatch; [reflexivity | | | ];
    rewrite ?length_map; assumption.
Qed.

Lemma eval_squared_mismatch_map_id (p : DMProfile) (xs ss : list float) :
  constructed p ->
  List.length xs <> List.length ss ->
  (2 <= List.length xs)%nat -> (2 <= List.length ss)%nat ->
  _eval_squared (Arr xs) (Arr ss) p
  = Raise (ValueError "operands could not be broadcast together").
Proof.
  intros Hc Hne Hx Hs.
  pose proof (eval_squared_mismatch_map p (fun x => x) (fun x => x) xs ss
                                        Hc Hne Hx Hs) as H.
  rewrite !map_id in H. exact H.
Qed.

(** X3. A batch of [N >= 2] separations against a grid of [n >= 2] radii with
    [N <> n] is rejected: the subtraction under the square root cannot
    broadcast the two arrays. *)
Theorem eval_squared_shape_mismatch (p : DMProfile) (xs ss : list float) :
  constructed p ->
  List.length xs <> List.length ss ->
  (2 <= List.length xs)%nat -> (2 <= List.length ss)%nat ->
  _eval_squared (Arr xs) (Arr ss) p
  = Raise (ValueError "operands could not be broadcast together").
Proof. exact (eval_squared_mismatch_map_id p xs ss). Qed.

Lemma eval_squared_shape_mismatch_witness :
  _eval_squared (Arr [Some 1; Some 2]) (Arr [Some 0; Some 0; Some 0])
                (NFWProfile.init None None)
  = Raise (ValueError "operands could not be broadcast together").
Proof.
  apply eval_squared_shape_mismatch; simpl; [reflexivity | lia | lia | lia].
Defined.

Lemma zip_with_length (f : float -> float -> float) (xs ys : list float) :
  List.length xs = List.length ys ->
  List.length (zip_with f xs ys) = List.length xs.
Proof.
  revert ys. induction xs as [ | x xs IH]; intros [ | y ys] H;
    simpl in *; try discriminate; [reflexivity | ].
  rewrite IH by lia. reflexivity.
Qed.

Lemma zip_with_maps (f : float -> float -> float) (g h : float -> float)
  (xs ss : list float) :
  zip_with f (map g xs) (map h ss)
  = zip_with (fun x s => f (g x) (h s)) xs ss.
Proof.
  revert ss. induction xs as [ | x xs IH]; intros [ | s ss]; simpl;
    try reflexivity.
  rewrite IH. reflexivity.
Qed.

Lemma zip_with_map_zip (f G : float -> float -> float) (g : float -> float)
  (xs ss : list float) :
  zip_with f (map g xs) (zip_with G xs ss)
  = zip_with (fun x s => f (g x) (G x s)) xs ss.
Proof.
  revert ss. induction xs as [ | x xs IH]; intros [ | s ss]; simpl;
    try reflexivity.
  rewrite IH. reflexivity.
Qed.

Lemma map_zip_with (f : float -> float) (G : float -> float -> float)
  (xs ss : list float) :
  map f (zip_with G xs ss) = zip_with (fun x s => f (G x s)) xs ss.
Proof.
  revert ss. induction xs as [ | x xs IH]; intros [ | s ss]; simpl;
    try reflexivity.
  rewrite IH. reflexivity.
Qed.

Lemma broadcast_zip (f : float -> float -> float) (xs ys : list float) :
  List.length xs = List.length ys ->
  broadcast f (Arr xs) (Arr ys) = Ok (Arr (zip_with f xs ys)).
Proof.
  intros Hl. unfold broadcast. rewrite Hl, Nat.eqb_refl. reflexivity.
Qed.

Lemma eval_squared_paired_map (p : DMProfile) :
  constructed p ->
  exists F : float -> float -> float,
    (forall x s,
        _eval_squared (Scalar x) (Scalar s) p = Ok (Scalar (F x s), p))
    /\ (forall (h : float -> float) xs ss,
           List.length xs = List.length ss ->
           _eval_squared (Arr (map h xs)) (Arr ss) p
           = Ok (Arr (zip_with (fun x s => F (h x) s) xs ss), p)).
Proof.
  intros Hc. destruct (call_map p Hc) as [g [Hs Ha]].
  eexists; split.
  - intros x s. unfold _eval_squared, mbind. rewrite Hs.
    unfold lift; simpl. reflexivity.
  - intros h xs ss Hl. unfold _eval_squared, mbind. rewrite Ha.
    unfold lift.
    change (ufunc np_sin (Arr ss)) with (Arr (map np_sin ss)).
    vectorise.
    rewrite broadcast_zip by (rewrite !length_map; exact Hl).
    rewrite zip_with_maps. cbn [rbind].
    unfold ufunc. rewrite map_zip_with.
    rewrite broadcast_zip
      by (rewrite length_map, zip_with_length; [reflexivity | exact Hl]).
    rewrite zip_with_map_zip. reflexivity.
Qed.

(** X4. A batch of separations of the length of the radius grid is paired off
    with it: entry [i] of the result is the integrand at radius [i] and
    separation [i], for a constructed profile. *)
Theorem eval_squared_paired (p : DMProfile) :
  constructed p ->
  exists F : float -> float -> float,
    (forall x s,
        _eval_squared (Scalar x) (Scalar s) p = Ok (Scalar (F x s), p))
    /\ (forall xs ss,
           List.length xs = List.length ss ->
           _eval_squared (Arr xs) (Arr ss) p
           = Ok (Arr (zip_with F xs ss), p)).
Proof.
  intros Hc. destruct (eval_squared_paired_map p Hc) as [F [Hs Ha]].
  exists F. split; [exact Hs | ].
  intros xs ss Hl. specialize (Ha (fun x => x) xs ss Hl).
  rewrite map_id in Ha. exact Ha.
Qed.

Lemma eval_squared_paired_witness :
  exists F : float -> float -> float,
    (forall x s,
        _eval_squared (Scalar x) (Scalar s) (MooreProfile.init None None)
        = Ok (Scalar (F x s), MooreProfile.init None None))
    /\ (forall xs ss,
           List.length xs = List.length ss ->
           _eval_squared (Arr xs) (Arr ss) (MooreProfile.init None None)
           = Ok (Arr (zip_with F xs ss), MooreProfile.init None None)).
Proof.
  apply (eval_squared_paired (MooreProfile.init None None)). reflexivity.
Defined.

(** ** The integrand as a function of the separation and of [rho_s] *)

(** X5. The integrand depends on the separation through [sin(separation)^2]
    only: it takes the same value at [-s] and at [s], for every profile and
    every radius, scalar or array. *)
Theorem eval_squared_even (p : DMProfile) (radius : ndarray) (s : R) :
  _eval_squared radius (lit (- s)) p = _eval_squared radius (lit s) p.
Proof.
  unfold _eval_squared, mbind.
  destruct (call radius p) as [[rho p'] | e]; [ | reflexivity].
  f_equal.
  destruct (rho **. lit 2) as [a | e]; [ | reflexivity]. cbn [rbind].
  destruct (a *. radius) as [b | e]; [ | reflexivity]. cbn [rbind].
  destruct (radius **. lit 2) as [c | e]; [ | reflexivity]. cbn [rbind].
  assert (E : (d <- lit DISTANCE_GC *. ufunc np_sin (lit (- s)) ;;
               d **. lit 2)
              = (d <- lit DISTANCE_GC *. ufunc np_sin (lit s) ;;
                 d **. lit 2)).
  { unfold lit; simpl. rewrite !np_multiply_some, !np_power_2, sin_neg.
    do 3 f_equal. ring. }
  unfold lit in E; unfold lit; simpl in E; simpl.
  injection E as E. rewrite E. reflexivity.
Qed.

(** X6. On the line of sight through the Galactic Center (separation 0) the
    integrand at a positive radius is the squared density, the integrand
    the docstring of [integral] gives. *)
Theorem eval_squared_at_zero_separation (p : DMProfile) (r rho : R) :
  0 < r ->
  call (lit r) p = Ok (lit rho, p) ->
  _eval_squared (lit r) (lit 0) p = Ok (lit (rho * rho), p).
Proof.
  intros Hr Hcall. rewrite (eval_squared_scalar p r 0 rho Hcall).
  unfold tangent_radius. rewrite sin_0.
  replace (r * r - DISTANCE_GC * 0 * (DISTANCE_GC * 0)) with (r * r) by ring.
  rewrite np_sqrt_pos by nra.
  rewrite sqrt_square by lra.
  rewrite np_divide_some by lra.
  unfold lit. replace (rho * rho * r / r) with (rho * rho) by (field; lra).
  reflexivity.
Qed.

Lemma eval_squared_at_zero_separation_witness :
  _eval_squared (lit 1) (lit 0) (IsothermalProfile.init (Some (Some 1)) None)
  = Ok (lit (1 / 2 * (1 / 2)), IsothermalProfile.init (Some (Some 1)) None).
Proof.
  apply eval_squared_at_zero_separation;
    [lra | exact isothermal_unit_at_1].
Defined.

Lemma np_power_2_float (a : float) : np_power a (Some 2) = np_multiply a a.
Proof. destruct a as [x | ]; [apply np_power_2 | reflexivity]. Qed.

Lemma integrand_scale (c : R) (d r q : float) :
  np_divide
    (np_multiply (np_power (np_multiply d (Some c)) (Some 2)) r) q
  = np_multiply (np_divide (np_multiply (np_power d (Some 2)) r) q)
                (Some (c * c)).
Proof.
  rewrite !np_power_2_float.
  destruct d as [x | ], r as [y | ], q as [z | ]; try reflexivity.
  rewrite !np_multiply_some. unfold np_divide.
  destruct (Req_dec_T z 0); [reflexivity | ].
  rewrite np_multiply_some. f_equal. unfold Rdiv. ring.
Qed.

(** X7. The integrand is homogeneous of degree 2 in [rho_s]: on a constructed
    profile, multiplying [rho_s] by [c] multiplies the integrand at every
    scalar radius and separation by [c^2]. *)
Theorem eval_squared_quadratic_in_rho_s (p : DMProfile) (r s : float) :
  constructed p ->
  exists F : float -> float,
    (forall y, _eval_squared (Scalar r) (Scalar s) (with_rho_s p y)
               = Ok (Scalar (F y), with_rho_s p y))
    /\ (forall c y,
           F (np_multiply y (Some c)) = np_multiply (F y) (Some (c * c))).
Proof.
  intros Hc. destruct (call_with_rho_s p r Hc) as [g [Hg Hh]].
  eexists; split.
  - intros y. unfold _eval_squared, mbind. rewrite Hg.
    unfold lift; simpl. reflexivity.
  - intros c y. cbv beta. rewrite Hh. apply integrand_scale.
Qed.

Lemma eval_squared_quadratic_in_rho_s_witness :
  exists F : float -> float,
    (forall y, _eval_squared (Scalar (Some 1)) (Scalar (Some 0))
                             (with_rho_s (EinastoProfile.init None None None) y)
               = Ok (Scalar (F y),
                     with_rho_s (EinastoProfile.init None None None) y))
    /\ (forall c y,
           F (np_multiply y (Some c)) = np_multiply (F y) (Some (c * c))).
Proof.
  apply (eval_squared_quadratic_in_rho_s (EinastoProfile.init None None None)).
  reflexivity.
Defined.

(** ** [scale_to_local_density] at every radius, and on a vanishing density *)

(** X8. Rescaling changes the normalisation only: after
    [scale_to_local_density] the density at every scalar radius is the
    density before, times the one factor [LOCAL_DENSITY / v], where [v] is
    the finite non-zero density the profile had at [DISTANCE_GC]. *)
Theorem scale_to_local_density_rescales (p : DMProfile) (v : R) :
  constructed p ->
  call (lit DISTANCE_GC) p = Ok (Scalar (Some v), p) ->
  v <> 0 ->
  exists p1 : DMProfile,
    scale_to_local_density p = Ok (tt, p1)
    /\ forall (r d : float),
        call (Scalar r) p = Ok (Scalar d, p) ->
        call (Scalar r) p1
        = Ok (Scalar (np_multiply d (Some (LOCAL_DENSITY / v))), p1).
Proof.
  intros Hc Hcall Hv.
  destruct (constructed_has_rho_s p Hc) as [rho Hrho].
  assert (Hp : with_rho_s p rho = p).
  { unfold with_rho_s.
    pose proof (par_set_value_own _ _ _ Hrho) as E; simpl in E.
    rewrite E. destruct p; reflexivity. }
  eexists; split; [apply (scale_step p rho v Hrho Hcall Hv) | ].
  intros r d Hd.
  destruct (call_with_rho_s p r Hc) as [g [Hg Hh]].
  assert (Hgd : g rho = d).
  { specialize (Hg rho). rewrite Hp, Hd in Hg. injection Hg as Hg.
    symmetry; exact Hg. }
  rewrite Hg, Hh, Hgd. reflexivity.
Qed.

Lemma scale_to_local_density_rescales_witness :
  exists p1 : DMProfile,
    scale_to_local_density
      (IsothermalProfile.init (Some (Some DISTANCE_GC)) None) = Ok (tt, p1)
    /\ forall (r d : float),
        call (Scalar r) (IsothermalProfile.init (Some (Some DISTANCE_GC)) None)
        = Ok (Scalar d,
              IsothermalProfile.init (Some (Some DISTANCE_GC)) None) ->
        call (Scalar r) p1
        = Ok (Scalar (np_multiply d (Some (LOCAL_DENSITY / (1 / 2)))), p1).
Proof.
  apply (scale_to_local_density_rescales
           (IsothermalProfile.init (Some (Some DISTANCE_GC)) None) (1 / 2)).
  - reflexivity.
  - unfold call, mbind, get_self, lift, lit, DISTANCE_GC,
      DEFAULT_RHO_S; simpl.
    rewrite np_divide_some by lra.
    replace (833 / 100 / (833 / 100)) with 1 by lra.
    rewrite np_power_2, np_add_some. rewrite np_divide_some by lra.
    reals. unfold DEFAULT_RHO_S. lra.
  - lra.
Defined.

Lemma call_without_rho_s (p : DMProfile) (r : float) :
  constructed p ->
  call (Scalar r) (with_rho_s p None) = Ok (Scalar None, with_rho_s p None).
Proof.
  destruct p as [k ps]. unfold constructed; simpl. intros H.
  destruct k; simpl in H; shape H;
    unfold call, mbind, get_self, lift, with_rho_s; simpl; reflexivity.
Qed.

(** X9. Where the density at [DISTANCE_GC] is exactly zero (a profile built with
    [rho_s = 0]) [scale_to_local_density] does not raise: the scale factor
    is [0.3 / 0], [rho_s] is overwritten with a non-finite value, and from
    then on the density is non-finite at every radius. *)
Theorem scale_to_local_density_on_zero (p : DMProfile) :
  constructed p ->
  call (lit DISTANCE_GC) p = Ok (lit 0, p) ->
  scale_to_local_density p = Ok (tt, with_rho_s p None)
  /\ forall r : float,
      call (Scalar r) (with_rho_s p None)
      = Ok (Scalar None, with_rho_s p None).
Proof.
  intros Hc Hcall. split.
  - destruct (constructed_has_rho_s p Hc) as [rho Hrho].
    unfold scale_to_local_density, mbind. rewrite Hcall.
    unfold lift, lit; simpl. rewrite np_divide_zero.
    unfold par_imul. rewrite Hrho. simpl.
    rewrite (np_multiply_comm rho None). reflexivity.
  - intros r. apply call_without_rho_s; exact Hc.
Qed.

Lemma scale_to_local_density_on_zero_witness :
  let p := IsothermalProfile.init (Some (Some DISTANCE_GC)) (Some (Some 0)) in
  scale_to_local_density p = Ok (tt, with_rho_s p None)
  /\ forall r : float,
      call (Scalar r) (with_rho_s p None)
      = Ok (Scalar None, with_rho_s p None).
Proof.
  apply (scale_to_local_density_on_zero
           (IsothermalProfile.init (Some (Some DISTANCE_GC)) (Some (Some 0)))).
  - reflexivity.
  - unfold call, mbind, get_self, lift, lit, DISTANCE_GC; simpl.
    rewrite np_divide_some by lra.
    replace (833 / 100 / (833 / 100)) with 1 by lra.
    rewrite np_power_2, np_add_some. rewrite np_divide_some by lra.
    reals. lra.
Defined.

(** ** The profiles at the origin and at positive radii *)

Lemma np_power_zero_pos (y : R) :
  0 < y -> np_power (Some 0) (Some y) = Some 0.
Proof.
  intros Hy. unfold np_power.
  destruct (Rlt_dec 0 0) as [F | _]; [lra | ].
  destruct (Req_dec_T 0 0) as [_ | N]; [ | exfalso; apply N; reflexivity].
  destruct (Rlt_dec 0 y) as [_ | N]; [reflexivity | contradiction].
Qed.

(** X10. At radius 0, with default shape parameters and any non-zero scale
    radius, no variant raises: NFW, Moore and the default Zhao profile
    return a non-finite density (a division by zero), Isothermal and Burkert
    return [rho_s], Einasto returns [rho_s * exp (2 / alpha)]. *)
Theorem profile_at_origin (k : ProfileKind) (r_s rho_s : R) :
  r_s <> 0 ->
  let p := with_default_shape k (Some (Some r_s)) (Some (Some rho_s)) in
  call (lit 0) p = Ok (Scalar (density_at_origin k rho_s), p).
Proof.
  intros Hr p. subst p. unfold call, mbind, get_self, lift, lit.
  destruct k; simpl;
    rewrite ?(np_divide_some 0 r_s) by assumption;
    replace (0 / r_s) with 0 by (field; assumption).
  - unfold ZhaoProfile.DEFAULT_ALPHA, ZhaoProfile.DEFAULT_BETA,
      ZhaoProfile.DEFAULT_GAMMA.
    rewrite zhao_exponent_nfw, np_power_1, np_add_some, np_power_2,
      np_multiply_some.
    replace (0 * ((1 + 0) * (1 + 0))) with 0 by lra.
    rewrite np_divide_zero. reflexivity.
  - rewrite np_add_some, np_power_2, np_multiply_some.
    replace (0 * ((1 + 0) * (1 + 0))) with 0 by lra.
    rewrite np_divide_zero. reflexivity.
  - unfold EinastoProfile.DEFAULT_ALPHA.
    rewrite np_divide_some by lra.
    rewrite np_power_zero_pos by lra.
    rewrite np_subtract_some, !np_multiply_some. simpl.
    rewrite np_multiply_some. reals. do 2 f_equal. lra.
  - rewrite np_power_2, np_add_some. rewrite np_divide_some by lra.
    reals. lra.
  - rewrite np_power_2, !np_add_some, np_multiply_some.
    rewrite np_divide_some by lra.
    reals. lra.
  - rewrite np_divide_zero. reflexivity.
Qed.

Lemma profile_at_origin_witness :
  call (lit 0) (with_default_shape Moore (Some (Some 1)) (Some (Some 1)))
  = Ok (Scalar (density_at_origin Moore 1),
        with_default_shape Moore (Some (Some 1)) (Some (Some 1))).
Proof.
  apply (profile_at_origin Moore 1 1). lra.
Defined.

Lemma Rpower_pos (x y : R) : 0 < Rpower x y.
Proof. unfold Rpower. apply exp_pos. Qed.

(** X11. With default shape parameters, a positive scale radius and a positive
    characteristic density, every variant has a finite, strictly positive
    density at every positive radius. *)
Theorem density_positive (k : ProfileKind) (r r_s rho_s : R) :
  0 < r -> 0 < r_s -> 0 < rho_s ->
  let p := with_default_shape k (Some (Some r_s)) (Some (Some rho_s)) in
  exists v : R, call (lit r) p = Ok (lit v, p) /\ 0 < v.
Proof.
  intros Hr Hs Hrho p. subst p.
  assert (Hrr : 0 < r / r_s) by (apply Rdiv_lt_0_compat; assumption).
  assert (Hrr' : 0 < r_s / r) by (apply Rdiv_lt_0_compat; assumption).
  unfold call, mbind, get_self, lift, lit.
  destruct k; simpl;
    rewrite ?(np_divide_some r r_s), ?(np_divide_some r_s r) by lra.
  - unfold ZhaoProfile.DEFAULT_ALPHA, ZhaoProfile.DEFAULT_BETA,
      ZhaoProfile.DEFAULT_GAMMA.
    rewrite zhao_exponent_nfw, np_power_1, np_add_some, np_power_2,
      np_multiply_some.
    rewrite np_divide_some by nra.
    eexists; split; [reflexivity | ].
    apply Rdiv_lt_0_compat; nra.
  - rewrite np_add_some, np_power_2, np_multiply_some.
    rewrite np_divide_some by nra.
    eexists; split; [reflexivity | ].
    apply Rdiv_lt_0_compat; nra.
  - unfold EinastoProfile.DEFAULT_ALPHA.
    rewrite np_divide_some by lra.
    rewrite np_power_pos by lra.
    rewrite np_subtract_some, !np_multiply_some. simpl.
    rewrite np_multiply_some.
    eexists; split; [reflexivity | ].
    apply Rmult_lt_0_compat; [assumption | apply exp_pos].
  - rewrite np_power_2, np_add_some. rewrite np_divide_some by nra.
    eexists; split; [reflexivity | ].
    apply Rdiv_lt_0_compat; nra.
  - rewrite np_power_2, !np_add_some, np_multiply_some.
    rewrite np_divide_some by nra.
    eexists; split; [reflexivity | ].
    apply Rdiv_lt_0_compat; nra.
  - rewrite np_power_pos by lra.
    rewrite np_add_some, np_multiply_some.
    rewrite np_power_pos by lra. rewrite np_multiply_some.
    eexists; split; [reflexivity | ].
    repeat apply Rmult_lt_0_compat; try assumption; apply Rpower_pos.
Qed.

Lemma density_positive_witness :
  exists v : R,
    call (lit 1) (with_default_shape Zhao (Some (Some 1)) (Some (Some 1)))
    = Ok (lit v, with_default_shape Zhao (Some (Some 1)) (Some (Some 1)))
    /\ 0 < v.
Proof.
  apply (density_positive Zhao 1 1 1); lra.
Defined.

Lemma zhao_default_formula (radius : ndarray) (r_s rho_s : float) :
  ZhaoProfile.evaluate radius (Scalar r_s)
    (Scalar (Some ZhaoProfile.DEFAULT_ALPHA))
    (Scalar (Some ZhaoProfile.DEFAULT_BETA))
    (Scalar (Some ZhaoProfile.DEFAULT_GAMMA)) (Scalar rho_s)
  = NFWProfile.evaluate radius (Scalar r_s) (Scalar rho_s).
Proof.
  unfold ZhaoProfile.evaluate, NFWProfile.evaluate, lit,
    ZhaoProfile.DEFAULT_ALPHA, ZhaoProfile.DEFAULT_BETA,
    ZhaoProfile.DEFAULT_GAMMA.
  destruct radius as [r | rs]; simpl.
  - rewrite zhao_exponent_nfw, np_power_1_float. reflexivity.
  - rewrite zhao_exponent_nfw.
    assert (E : map (fun x => np_power x (Some 1))
                    (map (fun x => np_divide x r_s) rs)
                = map (fun x => np_divide x r_s) rs).
    { rewrite <- (map_id (map _ rs)) at 2.
      apply map_ext. intros a. apply np_power_1_float. }
    rewrite E. reflexivity.
Qed.

(** X12. A Zhao profile constructed without shape parameters and an NFW profile
    constructed with the same (given or omitted) [r_s] and [rho_s] return
    the same density, or raise the same error, at every radius, scalar or
    array. *)
Theorem default_zhao_is_nfw (radius : ndarray) (r_s rho_s : option float) :
  returned (call radius (ZhaoProfile.init r_s None None None rho_s))
  = returned (call radius (NFWProfile.init r_s rho_s)).
Proof.
  unfold call, mbind, get_self, lift.
  cbn [kind parameters ZhaoProfile.init NFWProfile.init or_default].
  replace (evaluate Zhao radius
             (kwargs_of
                [ {| name := "r_s";
                     value :=
                       or_default ZhaoProfile.DEFAULT_SCALE_RADIUS r_s |};
                  {| name := "rho_s";
                     value := or_default DEFAULT_RHO_S rho_s |};
                  {| name := "alpha";
                     value := Some ZhaoProfile.DEFAULT_ALPHA |};
                  {| name := "beta";
                     value := Some ZhaoProfile.DEFAULT_BETA |};
                  {| name := "gamma";
                     value := Some ZhaoProfile.DEFAULT_GAMMA |} ]))
    with (evaluate NFW radius
            (kwargs_of
               [ {| name := "r_s";
                    value :=
                      or_default NFWProfile.DEFAULT_SCALE_RADIUS r_s |};
                 {| name := "rho_s";
                    value := or_default DEFAULT_RHO_S rho_s |} ])).
  - destruct (evaluate NFW radius _) as [v | e]; reflexivity.
  - symmetry. apply zhao_default_formula.
Qed.

(** ** The nodes of the quadrature grid *)

Lemma Rpower_10_log10 (x : R) : 0 < x -> Rpower 10 (log10 x) = x.
Proof.
  intros Hx. unfold Rpower, log10. pose proof ln_10_pos.
  replace (ln x / ln 10 * ln 10) with (ln x) by (field; lra).
  apply exp_ln; exact Hx.
Qed.

Lemma np_power_10 (y : R) : np_power (Some 10) (Some y) = Some (Rpower 10 y).
Proof. apply np_power_pos. lra. Qed.

(** X13. Where the node count the code computes is 2 or more, the grid
    for positive bounds starts at [xmin] and ends at [xmax]: both bounds
    are nodes. *)
Theorem quadrature_grid_endpoints (xmin xmax : R) (ndecade : Z) :
  0 < xmin -> 0 < xmax ->
  (2 <= np_int32 (computed_span (Some xmin) (Some xmax) ndecade))%Z ->
  exists xs,
    quadrature_grid (Some xmin) (Some xmax) ndecade = Ok xs
    /\ hd None xs = Some xmin
    /\ last xs None = Some xmax.
Proof.
  intros Hmin Hmax Hn. unfold quadrature_grid.
  set (n := np_int32 (computed_span (Some xmin) (Some xmax) ndecade)) in Hn.
  fold n. rewrite !np_log10_pos by assumption.
  unfold np_logspace, np_linspace.
  replace (n <? 0)%Z with false by (symmetry; apply Z.ltb_ge; lia).
  replace (1 <? n)%Z with true by (symmetry; apply Z.ltb_lt; lia).
  replace (0 <? n - 1)%Z with true by (symmetry; apply Z.ltb_lt; lia).
  cbn [rbind]. eexists; split; [reflexivity | ].
  assert (Hd : IZR (n - 1) <> 0) by (apply not_0_IZR; lia).
  rewrite np_subtract_some, np_divide_some by exact Hd.
  destruct (Z.to_nat n) as [ | [ | m]] eqn:En; try lia.
  split.
  - cbn [seq map removelast app hd].
    rewrite np_multiply_some, np_add_some, np_power_10. f_equal.
    replace (INR 0 * ((log10 xmax - log10 xmin) / IZR (n - 1)) + log10 xmin)
      with (log10 xmin) by (simpl; lra).
    apply Rpower_10_log10; exact Hmin.
  - rewrite map_app. simpl (map _ [_]).
    rewrite last_last, np_power_10. f_equal.
    apply Rpower_10_log10; exact Hmax.
Qed.

(** X14. Where the node count the code computes is exactly 1, the grid for
    positive bounds is the lower bound alone: the upper bound is not a
    node. *)
Theorem quadrature_grid_single (xmin xmax : R) (ndecade : Z) :
  0 < xmin -> 0 < xmax ->
  np_int32 (computed_span (Some xmin) (Some xmax) ndecade) = 1%Z ->
  quadrature_grid (Some xmin) (Some xmax) ndecade = Ok [Some xmin].
Proof.
  intros Hmin Hmax Hn. unfold quadrature_grid. rewrite Hn.
  rewrite !np_log10_pos by assumption.
  unfold np_logspace, np_linspace. simpl.
  rewrite np_subtract_some, np_multiply_some, np_add_some, np_power_10.
  do 3 f_equal.
  replace (0 * (log10 xmax - log10 xmin) + log10 xmin) with (log10 xmin)
    by lra.
  apply Rpower_10_log10; exact Hmin.
Qed.

Lemma trunc_span_1_40 : trunc ((log10 40 - log10 1) * IZR 1) = 1%Z.
Proof.
  pose proof log10_40_bounds as [Hl Hu].
  assert (Hp : 0 <= (log10 40 - log10 1) * IZR 1) by (rewrite log10_1; lra).
  destruct (trunc_nonneg _ Hp) as [-> _]. exact span_1_40.
Qed.

Lemma Forall_removelast {A} (P : A -> Prop) (l : list A) :
  Forall P l -> Forall P (removelast l).
Proof.
  induction 1 as [ | x l Hx Hl IH]; simpl; [constructor | ].
  destruct l; [constructor | constructor; assumption].
Qed.

Lemma linspace_within (start stop : R) (num : Z) (ys : list float) :
  start <= stop ->
  np_linspace (Some start) (Some stop) num = Ok ys ->
  Forall (fun y => exists v, y = Some v /\ start <= v <= stop) ys.
Proof.
  intros Hle. unfold np_linspace.
  destruct (num <? 0)%Z eqn:Hneg; [discriminate | ].
  apply Z.ltb_ge in Hneg. intros E; injection E as <-.
  rewrite np_subtract_some.
  assert (Hy : Forall (fun y => exists v, y = Some v /\ start <= v <= stop)
                 (map (fun i =>
                         np_add
                           (np_multiply (Some (INR i))
                              (if (0 <? num - 1)%Z
                               then np_divide (Some (stop - start))
                                              (Some (IZR (num - 1)))
                               else Some (stop - start)))
                           (Some start))
                      (seq 0 (Z.to_nat num)))).
  { apply Forall_map, Forall_forall. intros i Hi. apply in_seq in Hi.
    assert (H0 : 0 <= INR i) by apply pos_INR.
    destruct (0 <? num - 1)%Z eqn:Hd.
    - apply Z.ltb_lt in Hd.
      assert (Hm : 0 < IZR (num - 1)) by (apply IZR_lt; lia).
      assert (Hi' : INR i <= IZR (num - 1)).
      { rewrite INR_IZR_INZ. apply IZR_le. lia. }
      rewrite np_divide_some by lra.
      rewrite np_multiply_some, np_add_some.
      eexists; split; [reflexivity | ].
      set (q := (stop - start) / IZR (num - 1)).
      assert (Hq : q * IZR (num - 1) = stop - start)
        by (unfold q; field; lra).
      assert (Hq0 : 0 <= q) by nra.
      nra.
    - apply Z.ltb_ge in Hd.
      assert (i = 0%nat) by lia. subst i.
      rewrite np_multiply_some, np_add_some.
      eexists; split; [reflexivity | ]. simpl. lra. }
  destruct (1 <? num)%Z; [ | exact Hy].
  apply Forall_app. split; [apply Forall_removelast; exact Hy | ].
  constructor; [ | constructor].
  eexists; split; [reflexivity | lra].
Qed.

(** X15. Every node of the grid is finite and lies between the bounds: for
    [0 < xmin <= xmax] each node [x] satisfies [xmin <= x <= xmax]. *)
Theorem quadrature_grid_within (xmin xmax : R) (ndecade : Z)
  (xs : list float) :
  0 < xmin -> xmin <= xmax ->
  quadrature_grid (Some xmin) (Some xmax) ndecade = Ok xs ->
  Forall (fun x => exists v, x = Some v /\ xmin <= v <= xmax) xs.
Proof.
  intros Hmin Hle. unfold quadrature_grid.
  rewrite !np_log10_pos by lra.
  unfold np_logspace.
  destruct (np_linspace (Some (log10 xmin)) (Some (log10 xmax)) _)
    as [ys | e] eqn:E; [ | discriminate].
  cbn [rbind]. intros H; injection H as <-.
  assert (Hlog : log10 xmin <= log10 xmax).
  { destruct Hle as [Hlt | ->]; [ | lra].
    left. apply log10_increasing; lra. }
  pose proof (linspace_within _ _ _ _ Hlog E) as Hy.
  apply Forall_map. revert Hy. apply Forall_impl.
  intros y [v [-> [Hv1 Hv2]]]. rewrite np_power_10.
  eexists; split; [reflexivity | ].
  split.
  - rewrite <- (Rpower_10_log10 xmin) at 1 by lra.
    apply Rle_Rpower; lra.
  - rewrite <- (Rpower_10_log10 xmax) at 1 by lra.
    apply Rle_Rpower; lra.
Qed.

(** ** A batch of separations through [integral] *)

(** X16. [integral] with a batch of [N >= 2] separations over a grid of
    [n >= 2] nodes, [n] the node count the code computes and [N <> n],
    raises the broadcasting [ValueError]: a batch is accepted only when it
    is as long as the grid. *)
Theorem integral_batch_mismatch (p : DMProfile) (xmin xmax : float)
  (ndecade : Z) (ss : list float) :
  constructed p ->
  let n := np_int32 (computed_span xmin xmax ndecade) in
  (2 <= n)%Z ->
  (2 <= List.length ss)%nat ->
  Z.of_nat (List.length ss) <> n ->
  integral xmin xmax (Arr ss) ndecade p
  = Raise (ValueError "operands could not be broadcast together").
Proof.
  intros Hc n Hn Hs Hne.
  destruct (quadrature_grid_count xmin xmax ndecade) as [xs [E L]];
    [fold n; lia | ].
  fold n in L.
  unfold integral, integrate_spectrum_separation, mbind.
  rewrite E. unfold lift at 1.
  rewrite eval_squared_mismatch_map_id; [reflexivity | exact Hc | | | ]; lia.
Qed.

(** ** Other variants as special cases of the Zhao formula *)

Lemma np_power_0 (x : R) : np_power (Some x) (Some 0) = Some 1.
Proof.
  unfold np_power.
  destruct (Rlt_dec 0 x) as [Hx | Hx].
  - rewrite Rpower_O by assumption. reflexivity.
  - destruct (Req_dec_T x 0) as [E | E].
    + destruct (Rlt_dec 0 0) as [F | _]; [lra | ].
      destruct (Req_dec_T 0 0) as [_ | N];
        [reflexivity | exfalso; apply N; reflexivity].
    + rewrite (ZfloorZ 0).
      destruct (Req_dec_T 0 0) as [_ | N];
        [reflexivity | exfalso; apply N; reflexivity].
Qed.

(** X17. The Zhao formula with [(alpha, beta, gamma) = (2, 2, 0)] is the
    Isothermal formula, at every scalar radius and for every [r_s] and
    [rho_s]. *)
Theorem zhao_220_is_isothermal (r r_s rho_s : float) :
  ZhaoProfile.evaluate (Scalar r) (Scalar r_s) (lit 2) (lit 2) (lit 0)
                       (Scalar rho_s)
  = IsothermalProfile.evaluate (Scalar r) (Scalar r_s) (Scalar rho_s).
Proof.
  unfold ZhaoProfile.evaluate, IsothermalProfile.evaluate, lit; simpl.
  rewrite np_subtract_some. rewrite np_divide_some by lra.
  replace ((2 - 0) / 2) with 1 by lra. rewrite np_power_1_float.
  destruct (np_divide r r_s) as [x | ]; [ | reflexivity].
  rewrite np_power_0, np_power_2, np_add_some, np_multiply_some.
  replace (1 * (1 + x * x)) with (1 + x * x) by lra. reflexivity.
Qed.

Lemma Rpower_Rinv (x y : R) : 0 < x -> Rpower (/ x) y = / Rpower x y.
Proof.
  intros Hx. rewrite <- Rpower_Ropp. unfold Rpower.
  rewrite ln_Rinv by assumption. f_equal. ring.
Qed.

(** X18. The Moore formula is the Zhao formula with
    [(alpha, beta, gamma) = (1, 3, 1.16)], at positive radius and scale
    radius. *)
Theorem zhao_moore (r r_s rho_s : R) :
  0 < r -> 0 < r_s ->
  ZhaoProfile.evaluate (lit r) (lit r_s) (lit 1) (lit 3) (lit (116 / 100))
                       (lit rho_s)
  = MooreProfile.evaluate (lit r) (lit r_s) (lit rho_s).
Proof.
  intros Hr Hs.
  assert (Hrr : 0 < r / r_s) by (apply Rdiv_lt_0_compat; assumption).
  assert (Hrr' : 0 < r_s / r) by (apply Rdiv_lt_0_compat; assumption).
  unfold ZhaoProfile.evaluate, MooreProfile.evaluate, lit; simpl.
  rewrite np_subtract_some. rewrite !np_divide_some by lra.
  rewrite np_power_1, !np_add_some.
  rewrite !np_power_pos by lra.
  pose proof (Rpower_pos (r / r_s) (116 / 100)) as H1.
  pose proof (Rpower_pos (1 + r / r_s) ((3 - 116 / 100) / 1)) as H2.
  rewrite !np_multiply_some. rewrite np_divide_some by nra.
  reals.
  replace (r_s / r) with (/ (r / r_s)) by (field; lra).
  rewrite Rpower_Rinv by assumption.
  replace (- (184 / 100)) with (Ropp ((3 - 116 / 100) / 1)) by lra.
  rewrite Rpower_Ropp. field. lra.
Qed.

Lemma zhao_moore_witness :
  ZhaoProfile.evaluate (lit 1) (lit 2) (lit 1) (lit 3) (lit (116 / 100))
                       (lit 1)
  = MooreProfile.evaluate (lit 1) (lit 2) (lit 1).
Proof. apply zhao_moore; lra. Defined.

End Doubles.

(** * The node count on concrete bounds *)

(** ** Exact operations *)

Lemma exact_ops_accurate : accurate exact_ops.
Proof.
  unfold accurate, close_to, relative_error; simpl.
  repeat split; intros;
    match goal with
    | |- Rabs (?a - ?a) <= _ =>
        replace (a - a) with 0 by ring; rewrite Rabs_R0;
        apply Rmult_le_pos; [lra | apply Rabs_pos]
    end.
Qed.

Lemma count_exact (xmin xmax : R) (ndecade n : Z) :
  0 < xmin -> 0 < xmax ->
  trunc ((log10 xmax - log10 xmin) * IZR ndecade) = n ->
  (-2147483648 <= n <= 2147483647)%Z ->
  np_int32 (computed_span exact_ops (Some xmin) (Some xmax) ndecade) = n.
Proof.
  intros Hmin Hmax Hn Hr. rewrite computed_span_pos by assumption.
  apply np_int32_in_range; [exact Hn | exact Hr].
Qed.

Lemma count_exact_1_100 :
  np_int32 (computed_span exact_ops (Some 1) (Some 100) 1) = 2%Z.
Proof. apply count_exact; [lra | lra | exact span_1_100 | lia]. Qed.

Lemma count_exact_1_40 :
  np_int32 (computed_span exact_ops (Some 1) (Some 40) 1) = 1%Z.
Proof. apply count_exact; [lra | lra | exact trunc_span_1_40 | lia]. Qed.

(** ** Any accurate operations *)

Lemma close_to_within (e c : R) :
  close_to e c ->
  e - Rabs e / 1000000000 <= c <= e + Rabs e / 1000000000.
Proof.
  unfold close_to, relative_error. intros H.
  unfold Rabs at 1 in H. destruct (Rcase_abs (c - e)); lra.
Qed.

Lemma close_to_zero (c : R) : close_to 0 c -> c = 0.
Proof.
  intros H. apply close_to_within in H. rewrite Rabs_R0 in H. lra.
Qed.

Lemma accurate_log10_1 (ops : DoubleOps) : accurate ops -> d_log10 ops 1 = 0.
Proof.
  intros [Hl _]. apply close_to_zero. rewrite <- log10_1. apply Hl. lra.
Qed.

(** Equal bounds: the computed span is exactly zero. *)
Lemma count_accurate_equal (ops : DoubleOps) (x : R) (ndecade : Z) :
  accurate ops -> 0 < x ->
  np_int32 (computed_span ops (Some x) (Some x) ndecade) = 0%Z.
Proof.
  intros [_ [Hs Hm]] Hx. rewrite computed_span_pos by assumption.
  assert (E1 : d_subtract ops (d_log10 ops x) (d_log10 ops x) = 0).
  { apply close_to_zero.
    replace 0 with (d_log10 ops x - d_log10 ops x) by ring. apply Hs. }
  rewrite E1.
  assert (E2 : d_multiply ops 0 (IZR ndecade) = 0).
  { apply close_to_zero.
    replace 0 with (0 * IZR ndecade) at 1 by ring. apply Hm. }
  rewrite E2. apply np_int32_in_range; [ | lia].
  destruct (trunc_nonneg 0) as [-> _]; [lra | apply (ZfloorZ 0)].
Qed.

Lemma log10_40_upper : log10 40 < 9 / 5.
Proof.
  pose proof ln_10_pos as H10.
  assert (H5 : ln (40 ^ 5) = 5 * ln 40).
  { rewrite ln_pow by lra. simpl. lra. }
  assert (H9 : ln (10 ^ 9) = 9 * ln 10).
  { rewrite ln_pow by lra. simpl. lra. }
  assert (Hlt : ln (40 ^ 5) < ln (10 ^ 9)).
  { apply ln_increasing; simpl; lra. }
  unfold log10.
  apply (Rmult_lt_reg_r (ln 10)); [exact H10 | ].
  replace (ln 40 / ln 10 * ln 10) with (ln 40) by (field; lra). lra.
Qed.

(** From 1 to 40 with one point per decade the computed span stays between
    1 and 2, whatever the rounding. *)
Lemma count_accurate_1_40 (ops : DoubleOps) :
  accurate ops ->
  np_int32 (computed_span ops (Some 1) (Some 40) 1) = 1%Z.
Proof.
  intros Hacc. pose proof Hacc as [Hl [Hs Hm]].
  rewrite computed_span_pos by lra.
  rewrite (accurate_log10_1 ops Hacc).
  pose proof log10_40_bounds as [Ha _]. pose proof log10_40_upper as Hb.
  pose proof (close_to_within _ _ (Hl 40 ltac:(lra))) as HL.
  rewrite Rabs_pos_eq in HL by lra.
  set (L := d_log10 ops 40) in HL |- * .
  pose proof (close_to_within _ _ (Hs L 0)) as Hd.
  rewrite Rabs_pos_eq in Hd by lra.
  set (d := d_subtract ops L 0) in Hd |- * .
  pose proof (close_to_within _ _ (Hm d 1)) as Hp.
  rewrite Rabs_pos_eq in Hp by lra.
  set (m := d_multiply ops d 1) in Hp |- * .
  apply np_int32_in_range; [ | lia].
  destruct (trunc_nonneg m) as [-> _]; [lra | ].
  apply Zfloor_eq. lra.
Qed.

Lemma log10_100 : log10 100 = 2.
Proof.
  unfold log10. replace 100 with (10 * 10) by lra.
  rewrite ln_mult by lra. pose proof ln_10_pos. field. lra.
Qed.

(** From 100 down to 1 the computed span stays between -3 and -1: the
    count is negative, whatever the rounding. *)
Lemma count_accurate_100_1 (ops : DoubleOps) :
  accurate ops ->
  (np_int32 (computed_span ops (Some 100%R) (Some 1%R) 1) < 0)%Z.
Proof.
  intros Hacc. pose proof Hacc as [Hl [Hs Hm]].
  rewrite computed_span_pos by lra.
  rewrite (accurate_log10_1 ops Hacc).
  pose proof (close_to_within _ _ (Hl 100 ltac:(lra))) as HL.
  rewrite log10_100 in HL. rewrite Rabs_pos_eq in HL by lra.
  set (L := d_log10 ops 100) in HL |- * .
  pose proof (close_to_within _ _ (Hs 0 L)) as Hd.
  rewrite Rabs_left in Hd by lra.
  set (d := d_subtract ops 0 L) in Hd |- * .
  pose proof (close_to_within _ _ (Hm d 1)) as Hp.
  rewrite Rabs_left in Hp by lra.
  set (m := d_multiply ops d 1) in Hp |- * .
  assert (Ht : (-3 <= trunc m < 0)%Z).
  { unfold trunc. destruct (Rle_dec 0 m) as [F | _]; [lra | ].
    pose proof (Zceil_bound m) as [Hc1 Hc2].
    split.
    - apply le_IZR. lra.
    - apply lt_IZR. lra. }
  rewrite (np_int32_in_range m (trunc m) eq_refl) by lia. lia.
Qed.

(** ** A batch of two separations *)

Lemma integral_never_an_array (ops : DoubleOps) (rmin rmax : float)
  (separation : ndarray) (ndecade : Z) (p : DMProfile) :
  ~ (exists vs p', integral ops rmin rmax separation ndecade p
                   = Ok (Arr vs, p')).
Proof.
  intros [vs [p' E]]. unfold integral, mbind in E.
  pose proof (integrate_returns_scalar ops _eval_squared rmin rmax
                                       separation ndecade p) as H.
  destruct (integrate_spectrum_separation ops _eval_squared rmin rmax
                                          separation ndecade p)
    as [[v q] | e]; [ | discriminate E].
  destruct H as [x ->]. discriminate E.
Qed.

(** Two separations, 0 rad and 0.1 rad, between 1 kpc and 100 kpc with one
    point per decade: the grid has two nodes, node and separation are paired
    off, and the call returns one scalar, not an array of two integrals;
    under no arithmetic does it return such an array. *)
Lemma integral_batch_of_two_is_scalar :
  let p := NFWProfile.init None None in
  (exists x : float,
      integral exact_ops (Some 1) (Some 100) (Arr [Some 0; Some (1 / 10)]) 1 p
      = Ok (Scalar x, p))
  /\ ~ (exists v1 v2 p',
          integral exact_ops (Some 1) (Some 100)
                   (Arr [Some 0; Some (1 / 10)]) 1 p
          = Ok (Arr [v1; v2], p'))
  /\ (forall ops : DoubleOps,
         ~ (exists v1 v2 p',
               integral ops (Some 1) (Some 100)
                        (Arr [Some 0; Some (1 / 10)]) 1 p
               = Ok (Arr [v1; v2], p'))).
Proof.
  intros p.
  assert (Hall : forall ops : DoubleOps,
             ~ (exists v1 v2 p',
                   integral ops (Some 1) (Some 100)
                            (Arr [Some 0; Some (1 / 10)]) 1 p
                   = Ok (Arr [v1; v2], p'))).
  { intros ops [v1 [v2 [p' E]]].
    apply (integral_never_an_array ops (Some 1) (Some 100)
                                   (Arr [Some 0; Some (1 / 10)]) 1 p).
    exists [v1; v2], p'. exact E. }
  repeat split; [ | apply Hall | exact Hall].
  destruct (quadrature_grid_count exact_ops (Some 1) (Some 100) 1)
    as [xs [E L]]; [rewrite count_exact_1_100; lia | ].
  rewrite count_exact_1_100 in L.
  destruct xs as [ | a [ | b [ | c xs]]]; try discriminate L.
  unfold integral, integrate_spectrum_separation, mbind.
  rewrite E. unfold lift at 1. subst p.
  unfold _eval_squared, call, mbind, get_self, lift, mret; simpl.
  eexists; reflexivity.
Qed.

(** ** The node count between 1 kpc and 40 kpc *)

(** Between 1 kpc and 40 kpc with one point per decade the span is about
    1.6 decades: under any accurate arithmetic the grid has 1 node, where
    rounding the span gives 2. *)
Lemma grid_node_count_not_rounded :
  stated_node_count 1 40 1 = 2%Z
  /\ (forall ops : DoubleOps,
         accurate ops ->
         exists xs,
           quadrature_grid ops (Some 1) (Some 40) 1 = Ok xs
           /\ List.length xs = 1%nat
           /\ Z.of_nat (List.length xs) <> stated_node_count 1 40 1).
Proof.
  pose proof log10_40_bounds as [Hl Hu].
  assert (Hs : stated_node_count 1 40 1 = 2%Z).
  { unfold stated_node_count, round. rewrite span_1_40, log10_1.
    destruct (Rlt_dec ((log10 40 - 0) * 1 - 1) (1 / 2)) as [F | _]; [lra | ].
    destruct (Rlt_dec (1 / 2) ((log10 40 - 0) * 1 - 1)) as [_ | F]; [ | lra].
    reflexivity. }
  split; [exact Hs | ].
  intros ops Hacc.
  destruct (quadrature_grid_count ops (Some 1) (Some 40) 1) as [xs [E L]];
    [rewrite (count_accurate_1_40 ops Hacc); lia | ].
  rewrite (count_accurate_1_40 ops Hacc) in L.
  exists xs. repeat split; [exact E | exact L | ].
  rewrite L, Hs. discriminate.
Qed.

Lemma grid_node_count_witness :
  exists xs,
    quadrature_grid exact_ops (Some 1) (Some 40) 1 = Ok xs
    /\ Z.of_nat (List.length xs) = trunc ((log10 40 - log10 1) * IZR 1).
Proof.
  apply (grid_node_count exact_ops 1 40 1); [lra | lra | ].
  simpl. rewrite trunc_span_1_40. lia.
Defined.

(** ** Equal and reversed bounds *)

(** With [rmin = rmax = 1 kpc] (and the default 10000 points per decade)
    the default NFW profile integrates to zero under any accurate
    arithmetic: a value, not an error. *)
Lemma equal_bounds_return_zero :
  let p := NFWProfile.init None None in
  (forall ops : DoubleOps,
      accurate ops ->
      integral ops (Some 1) (Some 1) (lit 0) 10000 p = Ok (lit 0, p))
  /\ ~ (exists e,
          integral exact_ops (Some 1) (Some 1) (lit 0) 10000 p = Raise e).
Proof.
  intros p.
  assert (H : forall ops : DoubleOps,
             accurate ops ->
             integral ops (Some 1) (Some 1) (lit 0) 10000 p = Ok (lit 0, p)).
  { intros ops Hacc.
    destruct (quadrature_grid_count ops (Some 1) (Some 1) 10000)
      as [xs [E L]];
      [rewrite (count_accurate_equal ops 1 10000 Hacc); lra || lia | ].
    rewrite (count_accurate_equal ops 1 10000 Hacc) in L by lra.
    apply (integral_few_nodes ops p xs (Some 0) _ _ _ eq_refl E).
    rewrite L. simpl. lia. }
  split; [exact H | ].
  intros [e E]. rewrite (H exact_ops exact_ops_accurate) in E.
  discriminate E.
Qed.

Lemma degenerate_bounds_witness :
  let p := NFWProfile.init None None in
  let n := np_int32 (computed_span exact_ops (Some 1) (Some 1) 10000) in
  ((0 <= n <= 1)%Z ->
   integral exact_ops (Some 1) (Some 1) (Scalar (Some 0)) 10000 p
   = Ok (lit 0, p))
  /\ ((n < 0)%Z ->
      integral exact_ops (Some 1) (Some 1) (Scalar (Some 0)) 10000 p
      = Raise (ValueError "Number of samples must be non-negative")).
Proof.
  apply (degenerate_bounds exact_ops (NFWProfile.init None None)
                           (Some 1) (Some 1) (Some 0) 10000).
  reflexivity.
Defined.

(** Reversed bounds, 100 kpc down to 1 kpc with one point per decade: the
    count is negative under any accurate arithmetic and the failure is the
    one of [np.logspace]. *)
Lemma reversed_bounds_raise_in_logspace (ops : DoubleOps) :
  accurate ops ->
  integral ops (Some 100) (Some 1) (lit 0) 1 (NFWProfile.init None None)
  = Raise (ValueError "Number of samples must be non-negative").
Proof.
  intros Hacc. unfold integral, integrate_spectrum_separation, mbind.
  rewrite (quadrature_grid_negative ops (Some 100) (Some 1) 1
             (count_accurate_100_1 ops Hacc)).
  reflexivity.
Qed.

(** A bound that is zero or negative has no finite logarithm: the count is
    the smallest 32-bit integer and the failure is again the one of
    [np.logspace], under any arithmetic. *)
Lemma non_positive_bound_raises_in_logspace (ops : DoubleOps)
  (xmin : R) (xmax : float) (separation : ndarray) (ndecade : Z)
  (p : DMProfile) :
  xmin <= 0 ->
  integral ops (Some xmin) xmax separation ndecade p
  = Raise (ValueError "Number of samples must be non-negative").
Proof.
  intros Hx. unfold integral, integrate_spectrum_separation, mbind.
  rewrite quadrature_grid_negative; [reflexivity | ].
  unfold computed_span, double_log10.
  destruct (Rlt_dec 0 xmin) as [F | _]; [lra | ].
  destruct xmax as [x | ]; [destruct (Rlt_dec 0 x) | ]; simpl; lia.
Qed.

(** ** Grids on concrete bounds *)

Lemma quadrature_grid_endpoints_witness :
  exists xs,
    quadrature_grid exact_ops (Some 1) (Some 100) 1 = Ok xs
    /\ hd None xs = Some 1
    /\ last xs None = Some 100.
Proof.
  apply (quadrature_grid_endpoints exact_ops 1 100 1); [lra | lra | ].
  rewrite count_exact_1_100. lia.
Defined.

Lemma quadrature_grid_single_witness :
  quadrature_grid exact_ops (Some 1) (Some 40) 1 = Ok [Some 1].
Proof.
  apply (quadrature_grid_single exact_ops 1 40 1);
    [lra | lra | exact count_exact_1_40].
Defined.

Lemma quadrature_grid_within_witness :
  exists xs,
    quadrature_grid exact_ops (Some 1) (Some 100) 1 = Ok xs
    /\ Forall (fun x => exists v, x = Some v /\ 1 <= v <= 100) xs.
Proof.
  destruct (quadrature_grid_count exact_ops (Some 1) (Some 100) 1)
    as [xs [E L]]; [rewrite count_exact_1_100; lia | ].
  exists xs. split; [exact E | ].
  apply (quadrature_grid_within exact_ops 1 100 1 xs); [lra | lra | exact E].
Defined.

Lemma integral_batch_mismatch_witness :
  integral exact_ops (Some 1) (Some 100) (Arr [Some 0; Some 0; Some 0]) 1
           (NFWProfile.init None None)
  = Raise (ValueError "operands could not be broadcast together").
Proof.
  apply (integral_batch_mismatch exact_ops (NFWProfile.init None None)
                                 (Some 1) (Some 100) 1);
    [reflexivity | | simpl; lia | ];
    rewrite count_exact_1_100; simpl; lia.
Defined.
